(** * HR assistance bot: the resume pipeline of [main.py]

    A shallow embedding of the batch pipeline of [main.py]
    ([process_uploaded_files], [standardize_resumes],
    [convert_objectid_to_str], [upload_to_mongodb],
    [validate_and_reprocess_resumes]) and of the two download payloads,
    followed by the properties of the design document that concern them.

    Python values are embedded as a small universe [pyval]; the session
    state, the temporary directory and the user interface are fields of an
    explicit [world] that every stage threads through; the collaborators the
    file imports (parsers, standardizer, database manager, clock) are fields
    of an environment [Env]. *)

From Stdlib Require Import NArith ZArith Ascii String.
From stdpp Require Import base option list strings gmap pretty sorting.

Set Default Proof Using "Type".
Local Open Scope N_scope.

(** ** Python strings

    A [str] is a sequence of Unicode code points. *)

Abbreviation pystr := (list N).

Fixpoint ustr (s : string) : pystr :=
  match s with
  | EmptyString => []
  | String a s' => N_of_ascii a :: ustr s'
  end.

Definition str_eqb (a b : pystr) : bool := bool_decide (a = b).

(** [str.isspace] on one character: the code points Python treats as
    whitespace in [str.split()] and [str.strip()]. *)
Definition is_space (c : N) : bool :=
  ((9 <=? c) && (c <=? 13)) || ((28 <=? c) && (c <=? 32))
  || (c =? 133) || (c =? 160) || (c =? 5760)
  || ((8192 <=? c) && (c <=? 8202))
  || (c =? 8232) || (c =? 8233) || (c =? 8239) || (c =? 8287) || (c =? 12288).

(** [s.split()]: maximal runs of non-whitespace characters, in order. *)
Fixpoint split_ws_go (cur : pystr) (s : pystr) : list pystr :=
  match s with
  | [] => match cur with [] => [] | _ => [reverse cur] end
  | c :: s' =>
      if is_space c
      then match cur with
           | [] => split_ws_go [] s'
           | _ => reverse cur :: split_ws_go [] s'
           end
      else split_ws_go (c :: cur) s'
  end.

Definition str_split (s : pystr) : list pystr := split_ws_go [] s.

(** [s.strip()]. *)
Fixpoint lstrip (s : pystr) : pystr :=
  match s with
  | c :: s' => if is_space c then lstrip s' else s
  | [] => []
  end.

Definition str_strip (s : pystr) : pystr := reverse (lstrip (reverse (lstrip s))).

(** [str(n)] for a non-negative integer, and for any integer. *)
Definition str_of_nat (n : nat) : pystr := ustr (pretty n).
Definition str_of_Z (z : Z) : pystr := ustr (pretty z).

(** ** Python values

    The values that flow through the pipeline: JSON documents, and the
    documents the store returns, which may moreover hold objects of other
    classes (an [ObjectId], a [datetime]).  Such an object is carried by the
    name of its class, [type(obj).__name__], and by its [str(obj)].  A float
    is carried by its [repr].  A [dict] keeps its insertion order. *)

#[warnings="-register-all"]
Inductive pyval : Type :=
  | PNone
  | PBool (b : bool)
  | PInt (z : Z)
  | PFloat (repr : pystr)
  | PStr (s : pystr)
  | PList (l : list pyval)
  | PDict (kvs : list (pystr * pyval))
  | PObj (tyname : pystr) (str_form : pystr).

Section pyval_ind.
Variable P : pyval → Prop.
Hypothesis HNone : P PNone.
Hypothesis HBool : ∀ b, P (PBool b).
Hypothesis HInt : ∀ z, P (PInt z).
Hypothesis HFloat : ∀ r, P (PFloat r).
Hypothesis HStr : ∀ s, P (PStr s).
Hypothesis HList : ∀ l, Forall P l → P (PList l).
Hypothesis HDict : ∀ kvs, Forall (λ kv, P kv.2) kvs → P (PDict kvs).
Hypothesis HObj : ∀ ty s, P (PObj ty s).

Fixpoint pyval_rect_nested (v : pyval) : P v :=
  match v with
  | PNone => HNone
  | PBool b => HBool b
  | PInt z => HInt z
  | PFloat r => HFloat r
  | PStr s => HStr s
  | PList l =>
      HList l ((fix go (l : list pyval) : Forall P l :=
                  match l with
                  | [] => Forall_nil_2 P
                  | x :: l' => Forall_cons_2 P x l' (pyval_rect_nested x) (go l')
                  end) l)
  | PDict kvs =>
      HDict kvs ((fix go (l : list (pystr * pyval)) : Forall (λ kv, P kv.2) l :=
                    match l with
                    | [] => Forall_nil_2 _
                    | kv :: l' =>
                        Forall_cons_2 (λ kv, P kv.2) kv l'
                          (pyval_rect_nested kv.2) (go l')
                    end) kvs)
  | PObj ty s => HObj ty s
  end.
End pyval_ind.

Definition ObjectId_name : pystr := ustr "ObjectId".

(** [type(v).__name__]. *)
Definition type_name (v : pyval) : pystr :=
  match v with
  | PNone => ustr "NoneType"
  | PBool _ => ustr "bool"
  | PInt _ => ustr "int"
  | PFloat _ => ustr "float"
  | PStr _ => ustr "str"
  | PList _ => ustr "list"
  | PDict _ => ustr "dict"
  | PObj ty _ => ty
  end.

(** Truth value of [v], as [if v:] and [not v] test it. *)
Definition truthy (v : pyval) : bool :=
  match v with
  | PNone => false
  | PBool b => b
  | PInt z => negb (Z.eqb z 0)
  | PFloat r => negb (str_eqb r (ustr "0.0") || str_eqb r (ustr "-0.0"))
  | PStr s => match s with [] => false | _ => true end
  | PList l => match l with [] => false | _ => true end
  | PDict kvs => match kvs with [] => false | _ => true end
  | PObj _ _ => true
  end.

(** ** Dictionaries *)

Fixpoint dict_lookup (k : pystr) (kvs : list (pystr * pyval)) : option pyval :=
  match kvs with
  | [] => None
  | (k', v) :: rest => if str_eqb k' k then Some v else dict_lookup k rest
  end.

(** [d[k] = v]: the value of an existing key is replaced in place, a new
    key goes to the end. *)
Fixpoint dict_set (k : pystr) (v : pyval) (kvs : list (pystr * pyval))
  : list (pystr * pyval) :=
  match kvs with
  | [] => [(k, v)]
  | (k', v') :: rest =>
      if str_eqb k' k then (k', v) :: rest else (k', v') :: dict_set k v rest
  end.

(** ** [convert_objectid_to_str] *)

Fixpoint convert_objectid_to_str (obj : pyval) : pyval :=
  match obj with
  | PDict kvs =>
      PDict ((fix items (l : list (pystr * pyval)) : list (pystr * pyval) :=
                match l with
                | [] => []
                | (k, v) :: l' => (k, convert_objectid_to_str v) :: items l'
                end) kvs)
  | PList l => PList (map convert_objectid_to_str l)
  | PObj ty s => if str_eqb ty ObjectId_name then PStr s else obj
  | _ => obj
  end.

(** The items of a converted dict. *)
Definition convert_items (kvs : list (pystr * pyval)) : list (pystr * pyval) :=
  map (λ kv, (kv.1, convert_objectid_to_str kv.2)) kvs.

(** [obj] holds an [ObjectId] somewhere among the values the conversion walks. *)
Fixpoint has_objectid (obj : pyval) : bool :=
  match obj with
  | PDict kvs =>
      (fix any (l : list (pystr * pyval)) : bool :=
         match l with
         | [] => false
         | (_, v) :: l' => has_objectid v || any l'
         end) kvs
  | PList l => existsb has_objectid l
  | PObj ty _ => str_eqb ty ObjectId_name
  | _ => false
  end.

(** ** Exceptions and results *)

Record exn := Exn {
  exn_type : pystr;          (* the name of the exception's class *)
  exn_value_error : bool;    (* isinstance(e, ValueError) *)
  exn_str : pystr;           (* str(e) *)
}.

Inductive result (A : Type) : Type :=
  | Ok (a : A)
  | Raise (e : exn).
Arguments Ok {A} a.
Arguments Raise {A} e.

Definition TypeError (msg : pystr) : exn := Exn (ustr "TypeError") false msg.
Definition AttributeError (msg : pystr) : exn := Exn (ustr "AttributeError") false msg.
Definition IndexError (msg : pystr) : exn := Exn (ustr "IndexError") false msg.
Definition KeyError (msg : pystr) : exn := Exn (ustr "KeyError") false msg.
Definition FileNotFoundError (msg : pystr) : exn := Exn (ustr "FileNotFoundError") false msg.
Definition JSONDecodeError (msg : pystr) : exn := Exn (ustr "JSONDecodeError") true msg.
Definition UnicodeEncodeError (msg : pystr) : exn := Exn (ustr "UnicodeEncodeError") true msg.

Definition no_attribute (v : pyval) (attr : string) : exn :=
  AttributeError (ustr "'" ++ type_name v ++ ustr "' object has no attribute '"
                  ++ ustr attr ++ ustr "'").

(** [v.get(k)] and [v.get(k, default)]. *)
Definition py_get (v : pyval) (k : pystr) (dflt : pyval) : result pyval :=
  match v with
  | PDict kvs => Ok (default dflt (dict_lookup k kvs))
  | _ => Raise (no_attribute v "get")
  end.

(** [v[k] = x] for a string key [k]. *)
Definition py_setitem (v : pyval) (k : pystr) (x : pyval) : result pyval :=
  match v with
  | PDict kvs => Ok (PDict (dict_set k x kvs))
  | PList _ =>
      Raise (TypeError (ustr "list indices must be integers or slices, not str"))
  | _ =>
      Raise (TypeError (ustr "'" ++ type_name v
                        ++ ustr "' object does not support item assignment"))
  end.

(** ** The [json] module: [json.dumps] and [json.dump]

    [dumps ensure_ascii indent v] is [json.dumps(v, indent=indent,
    ensure_ascii=ensure_ascii)]. *)

Module Json.

Definition hex_digit (d : N) : N := if d <? 10 then 48 + d else 87 + d.

(** ['\\u{0:04x}'.format(n)] *)
Definition u_escape (n : N) : pystr :=
  [92; 117; hex_digit (n / 4096 mod 16); hex_digit (n / 256 mod 16);
   hex_digit (n / 16 mod 16); hex_digit (n mod 16)].

(** [ESCAPE_DCT]: the short escapes and the control characters. *)
Definition escape_dct (c : N) : option pystr :=
  if c =? 92 then Some [92; 92]
  else if c =? 34 then Some [92; 34]
  else if c =? 8 then Some [92; 98]
  else if c =? 12 then Some [92; 102]
  else if c =? 10 then Some [92; 110]
  else if c =? 13 then Some [92; 114]
  else if c =? 9 then Some [92; 116]
  else if c <? 32 then Some (u_escape c)
  else None.

(** One character of a string: with [ensure_ascii] everything outside
    [' '..'~'] becomes a [\uXXXX] escape (a surrogate pair above the
    basic plane); without it only [ESCAPE_DCT] applies. *)
Definition encode_char (ensure_ascii : bool) (c : N) : pystr :=
  match escape_dct c with
  | Some e => e
  | None =>
      if ensure_ascii && (126 <? c)
      then if c <? 65536 then u_escape c
           else let n := c - 65536 in
                u_escape (N.lor 55296 (N.land (N.shiftr n 10) 1023))
                ++ u_escape (N.lor 56320 (N.land n 1023))
      else [c]
  end.

Definition encode_basestring (ensure_ascii : bool) (s : pystr) : pystr :=
  [34] ++ concat (map (encode_char ensure_ascii) s) ++ [34].

(** [float.__repr__], with the three names JSON gives to non-finite floats. *)
Definition floatstr (repr : pystr) : pystr :=
  if str_eqb repr (ustr "nan") then ustr "NaN"
  else if str_eqb repr (ustr "inf") then ustr "Infinity"
  else if str_eqb repr (ustr "-inf") then ustr "-Infinity"
  else repr.

Definition newline_indent (indent : option nat) (level : nat) : pystr :=
  match indent with
  | Some n => 10 :: replicate (n * level) 32
  | None => []
  end.

Definition item_separator (indent : option nat) : pystr :=
  match indent with Some _ => ustr "," | None => ustr ", " end.

Definition key_separator : pystr := ustr ": ".

Fixpoint join (sep : pystr) (chunks : list pystr) : pystr :=
  match chunks with
  | [] => []
  | [c] => c
  | c :: rest => c ++ sep ++ join sep rest
  end.

Definition not_serializable (v : pyval) : exn :=
  TypeError (ustr "Object of type " ++ type_name v
             ++ ustr " is not JSON serializable").

Fixpoint encode (ensure_ascii : bool) (indent : option nat) (level : nat)
    (v : pyval) : result pystr :=
  match v with
  | PNone => Ok (ustr "null")
  | PBool b => Ok (if b then ustr "true" else ustr "false")
  | PInt z => Ok (str_of_Z z)
  | PFloat r => Ok (floatstr r)
  | PStr s => Ok (encode_basestring ensure_ascii s)
  | PList [] => Ok (ustr "[]")
  | PList l =>
      match (fix items (l : list pyval) : result (list pystr) :=
               match l with
               | [] => Ok []
               | x :: l' =>
                   match encode ensure_ascii indent (S level) x with
                   | Raise e => Raise e
                   | Ok c => match items l' with
                             | Raise e => Raise e
                             | Ok cs => Ok (c :: cs)
                             end
                   end
               end) l with
      | Raise e => Raise e
      | Ok chunks =>
          Ok (ustr "[" ++ newline_indent indent (S level)
              ++ join (item_separator indent ++ newline_indent indent (S level)) chunks
              ++ newline_indent indent level ++ ustr "]")
      end
  | PDict [] => Ok (ustr "{}")
  | PDict kvs =>
      match (fix items (l : list (pystr * pyval)) : result (list pystr) :=
               match l with
               | [] => Ok []
               | (k, x) :: l' =>
                   match encode ensure_ascii indent (S level) x with
                   | Raise e => Raise e
                   | Ok c => match items l' with
                             | Raise e => Raise e
                             | Ok cs =>
                                 Ok ((encode_basestring ensure_ascii k
                                      ++ key_separator ++ c) :: cs)
                             end
                   end
               end) kvs with
      | Raise e => Raise e
      | Ok chunks =>
          Ok (ustr "{" ++ newline_indent indent (S level)
              ++ join (item_separator indent ++ newline_indent indent (S level)) chunks
              ++ newline_indent indent level ++ ustr "}")
      end
  | PObj _ _ => Raise (not_serializable v)
  end.

Definition dumps (ensure_ascii : bool) (indent : option nat) (v : pyval)
  : result pystr :=
  encode ensure_ascii indent 0 v.

(** A text can be written to a file opened with [encoding="utf-8"] when it
    holds no surrogate code point. *)
Definition utf8_encodable (s : pystr) : bool :=
  forallb (λ c, negb ((55296 <=? c) && (c <=? 57343))) s.

Definition is_ascii (s : pystr) : bool := forallb (λ c, c <? 128) s.

End Json.

(** The two download payloads of the Job Description Matcher page:
    [payload = json.dumps(retailored, indent=2)] and
    [payload = json.dumps(clean_new, indent=2)], the latter on
    [clean_new = convert_objectid_to_str(new_res)]. *)
Definition download_payload (retailored : pyval) : result pystr :=
  Json.dumps true (Some 2%nat) retailored.

Definition download_payload_retailor (new_res : pyval) : result pystr :=
  Json.dumps true (Some 2%nat) (convert_objectid_to_str new_res).

(** The call the pipeline uses when it writes its own files:
    [json.dump(v, f, indent=2, ensure_ascii=False)]. *)
Definition file_dumps (v : pyval) : result pystr :=
  Json.dumps false (Some 2%nat) v.

(** ** Paths

    The three directories the module creates under the system's temporary
    directory, and plain file names inside them.  Uploaded file names and
    the names derived from them are plain names: a browser upload carries
    no directory part. *)

Inductive dir := TempDir | ParsedDir | StandardizedDir.

#[global] Instance dir_eq_dec : EqDecision dir.
Proof. solve_decision. Defined.

#[global] Instance dir_countable : Countable dir.
Proof.
  refine (inj_countable'
            (λ d, match d with TempDir => 0 | ParsedDir => 1 | StandardizedDir => 2 end)%nat
            (λ n, match n with 0 => TempDir | 1 => ParsedDir | _ => StandardizedDir end)%nat
            _).
  by intros [].
Defined.

Abbreviation path := (dir * pystr)%type.

Definition path_name (p : path) : pystr := p.2.

Module PurePath.

(** [name.rfind('.')] *)
Fixpoint rfind_dot_go (i : nat) (s : pystr) (acc : option nat) : option nat :=
  match s with
  | [] => acc
  | c :: s' => rfind_dot_go (S i) s' (if c =? 46 then Some i else acc)
  end.

Definition rfind_dot (name : pystr) : option nat := rfind_dot_go 0 name None.

(** [PurePath.stem] and [PurePath.suffix] of a plain name: the name is cut
    at its last dot when that dot is neither its first nor its last
    character. *)
Definition stem (name : pystr) : pystr :=
  match rfind_dot name with
  | Some i =>
      if ((0 <? i) && (i <? length name - 1))%nat then take i name else name
  | None => name
  end.

Definition suffix (name : pystr) : pystr :=
  match rfind_dot name with
  | Some i =>
      if ((0 <? i) && (i <? length name - 1))%nat then drop i name else []
  | None => []
  end.

End PurePath.

Definition path_stem (p : path) : pystr := PurePath.stem (path_name p).

(** ** The world *)

Inductive fcontent :=
  | FJson (v : pyval)       (* a JSON document, as [json.dump] wrote it *)
  | FText (s : pystr)       (* any other text *)
  | FBytes (b : list N).    (* a binary file *)

Inductive ui_event :=
  | UiWrite (s : pystr)
  | UiWarning (s : pystr)
  | UiError (s : pystr)
  | UiSuccess (s : pystr)
  | UiStatus (s : pystr)               (* status_text.text(...) *)
  | UiProgressStart                    (* st.progress(0) *)
  | UiProgress (done total : nat).     (* progress_bar.progress(done / total) *)

(** Calls that leave the process, in the order they are made. *)
Inductive ext_call :=
  | CNow                               (* datetime.now() *)
  | CParse (name : pystr)              (* ResumeParser().parse_resume *)
  | COcrParse (name : pystr)           (* ResumeParserwithOCR().parse_resume *)
  | CSaveJson (p : path)               (* parser.save_to_json *)
  | CStandardizerInit                  (* ResumeStandardizer() *)
  | CLlm (prompt : pystr)              (* standardizer.call_azure_llm *)
  | CDbInit                            (* ResumeDBManager() *)
  | CDbUpsert (record : pyval).        (* db_manager.insert_or_update_resume *)

(** An uploaded file: its name and [getbuffer()]. *)
Record upload := Upload { up_name : pystr; up_buffer : list N }.

(** [st.session_state], the temporary directory, what the page shows, the
    calls made so far, and [count], the counter local to the running stage
    ([processed_count], [standardized_count], [uploaded_count],
    [reprocessed_count]). *)
Record world := World {
  fs : gmap path fcontent;
  processing_complete : bool;
  standardizing_complete : bool;
  db_upload_complete : bool;
  processed_files : list path;
  standardized_files : list path;
  uploaded_files : list pystr;
  ui : list ui_event;
  trace : list ext_call;
  count : nat;
}.

Definition set_fs (f : gmap path fcontent → gmap path fcontent) (w : world) : world :=
  World (f (fs w)) (processing_complete w) (standardizing_complete w)
    (db_upload_complete w) (processed_files w) (standardized_files w)
    (uploaded_files w) (ui w) (trace w) (count w).
Definition set_processing_complete (b : bool) (w : world) : world :=
  World (fs w) b (standardizing_complete w)
    (db_upload_complete w) (processed_files w) (standardized_files w)
    (uploaded_files w) (ui w) (trace w) (count w).
Definition set_standardizing_complete (b : bool) (w : world) : world :=
  World (fs w) (processing_complete w) b
    (db_upload_complete w) (processed_files w) (standardized_files w)
    (uploaded_files w) (ui w) (trace w) (count w).
Definition set_db_upload_complete (b : bool) (w : world) : world :=
  World (fs w) (processing_complete w) (standardizing_complete w)
    b (processed_files w) (standardized_files w)
    (uploaded_files w) (ui w) (trace w) (count w).
Definition set_processed_files (f : list path → list path) (w : world) : world :=
  World (fs w) (processing_complete w) (standardizing_complete w)
    (db_upload_complete w) (f (processed_files w)) (standardized_files w)
    (uploaded_files w) (ui w) (trace w) (count w).
Definition set_standardized_files (f : list path → list path) (w : world) : world :=
  World (fs w) (processing_complete w) (standardizing_complete w)
    (db_upload_complete w) (processed_files w) (f (standardized_files w))
    (uploaded_files w) (ui w) (trace w) (count w).
Definition set_uploaded_files (f : list pystr → list pystr) (w : world) : world :=
  World (fs w) (processing_complete w) (standardizing_complete w)
    (db_upload_complete w) (processed_files w) (standardized_files w)
    (f (uploaded_files w)) (ui w) (trace w) (count w).
Definition set_ui (f : list ui_event → list ui_event) (w : world) : world :=
  World (fs w) (processing_complete w) (standardizing_complete w)
    (db_upload_complete w) (processed_files w) (standardized_files w)
    (uploaded_files w) (f (ui w)) (trace w) (count w).
Definition set_trace (f : list ext_call → list ext_call) (w : world) : world :=
  World (fs w) (processing_complete w) (standardizing_complete w)
    (db_upload_complete w) (processed_files w) (standardized_files w)
    (uploaded_files w) (ui w) (f (trace w)) (count w).
Definition set_count (f : nat → nat) (w : world) : world :=
  World (fs w) (processing_complete w) (standardizing_complete w)
    (db_upload_complete w) (processed_files w) (standardized_files w)
    (uploaded_files w) (ui w) (trace w) (f (count w)).

(** ** Computations: state and exceptions

    A statement maps the world to a new world and either a value or a raised
    exception; what it did before raising stays done. *)

Definition M (A : Type) : Type := world → result A * world.

Definition ret {A} (a : A) : M A := λ w, (Ok a, w).
Definition raise {A} (e : exn) : M A := λ w, (Raise e, w).
Definition bind {A B} (m : M A) (k : A → M B) : M B :=
  λ w, match m w with
       | (Ok a, w') => k a w'
       | (Raise e, w') => (Raise e, w')
       end.

(** [try: m  except Exception as e: h e] *)
Definition try_except {A} (m : M A) (h : exn → M A) : M A :=
  λ w, match m w with
       | (Ok a, w') => (Ok a, w')
       | (Raise e, w') => h e w'
       end.

Definition lift {A} (r : result A) : M A := λ w, (r, w).
Definition modify (f : world → world) : M unit := λ w, (Ok tt, f w).
Definition gets {A} (f : world → A) : M A := λ w, (Ok (f w), w).

#[global] Instance M_ret : MRet M := @ret.
#[global] Instance M_bind : MBind M := λ A B k m, bind m k.

Definition emit (ev : ui_event) : M unit := modify (set_ui (λ l, l ++ [ev])).
Definition call (c : ext_call) : M unit := modify (set_trace (λ l, l ++ [c])).

(** The number of calls made so far: the index the environment's answers
    are taken at. *)
Definition tick : M nat := gets (λ w, length (trace w)).

(** [for x in xs: body x], and [for i, x in enumerate(xs): body i x]. *)
Fixpoint for_each {A} (body : A → M unit) (xs : list A) : M unit :=
  match xs with
  | [] => ret tt
  | x :: xs' => body x ;; for_each body xs'
  end.

Fixpoint for_enumerate {A} (body : nat → A → M unit) (i : nat) (xs : list A)
  : M unit :=
  match xs with
  | [] => ret tt
  | x :: xs' => body i x ;; for_enumerate body (S i) xs'
  end.

(** How the body of a loop leaves its [try]: by falling through to the
    statements after it, or by [continue]. *)
Inductive flow := Fall | Continue.

#[global] Instance result_ret : MRet result := @Ok.
#[global] Instance result_bind : MBind result :=
  λ A B k r, match r with Ok a => k a | Raise e => Raise e end.

(** ** The environment

    What [main.py] imports or reads from its surroundings.  An answer that
    may differ from one call to the next is indexed by the number of calls
    made before it. *)

Record Env := {
  temp_dir : pystr;                                (* str(temp_dir) *)
  SUPPORTED_EXTENSIONS : list pystr;               (* ResumeParser.SUPPORTED_EXTENSIONS *)
  str_lower : pystr → pystr;                       (* str.lower *)
  now_isoformat : nat → pystr;                     (* datetime.now().isoformat() *)
  parse_resume : nat → upload → result pyval;      (* on the temporary copy of the upload *)
  ocr_parse_resume : nat → upload → result pyval;
  save_to_json : nat → pyval → path → option exn;  (* the exception it raises, if any *)
  standardizer_init : nat → option exn;
  make_standardizer_prompt : pyval → pyval → result pystr;
  call_azure_llm : nat → pystr → result pystr;
  clean_llm_response : pystr → result pystr;
  json_loads : pystr → result pyval;               (* json.loads *)
  json_load_bytes : list N → result pyval;         (* json.load on a binary file read as UTF-8 *)
  partial_dump : pyval → pystr;                    (* what json.dump wrote before it raised *)
  db_init : nat → option exn;
  insert_or_update_resume : nat → pyval → option exn;
}.

(** The keys the module reads and writes. *)
Definition k_timestamp : pystr := ustr "timestamp".
Definition k_source_file : pystr := ustr "source_file".
Definition k_original_filename : pystr := ustr "original_filename".
Definition k_content : pystr := ustr "content".
Definition k_links : pystr := ustr "links".
Definition k_name : pystr := ustr "name".

Definition raise_if (o : option exn) : M unit :=
  match o with Some e => raise e | None => ret tt end.

(** The name-validity test of [validate_and_reprocess_resumes]:
    [len(name.split()[0])]. *)
Definition first_token_len (name : pyval) : result nat :=
  match name with
  | PStr s =>
      match str_split s with
      | tok :: _ => Ok (length tok)
      | [] => Raise (IndexError (ustr "list index out of range"))
      end
  | _ => Raise (no_attribute name "split")
  end.

(** [not resume_data.get("name") or len(resume_data.get("name").split()[0]) < 2] *)
Definition needs_reprocessing (resume_data : pyval) : result bool :=
  name ← py_get resume_data k_name PNone;
  if negb (truthy name) then Ok true
  else (n ← first_token_len name; Ok (n <? 2)%nat).

(** [content.strip()] *)
Definition py_strip (content : pyval) : result pystr :=
  match content with
  | PStr s => Ok (str_strip s)
  | _ => Raise (no_attribute content "strip")
  end.

(** ** Messages *)

Definition emoji_check : pystr := [9989].
Definition emoji_warning : pystr := [9888; 65039].
Definition emoji_cross : pystr := [10060].
Definition emoji_lens : pystr := [128269].
Definition emoji_cycle : pystr := [128260].

Definition msg_processing_n (n : nat) : pystr :=
  ustr "Processing " ++ str_of_nat n ++ ustr " files...".
Definition msg_processing (i total : nat) (name : pystr) : pystr :=
  ustr "Processing " ++ str_of_nat (i + 1) ++ ustr "/" ++ str_of_nat total
  ++ ustr ": " ++ name.
Definition msg_unsupported (name ext : pystr) : pystr :=
  ustr "Skipping " ++ name ++ ustr ": Unsupported file type " ++ ext.
Definition msg_no_content (name : pystr) : pystr :=
  ustr "No content extracted from " ++ name.
Definition msg_error_parsing (name : pystr) (e : exn) : pystr :=
  ustr "Error parsing " ++ name ++ ustr ": " ++ exn_str e.
Definition msg_processed (k total : nat) : pystr :=
  emoji_check ++ ustr " Processed " ++ str_of_nat k ++ ustr "/"
  ++ str_of_nat total ++ ustr " files".

Definition msg_standardizing_n (n : nat) : pystr :=
  ustr "Standardizing " ++ str_of_nat n ++ ustr " files...".
Definition msg_standardizer_init (e : exn) : pystr :=
  ustr "Error initializing standardizer: " ++ exn_str e.
Definition msg_standardizing (i total : nat) (name : pystr) : pystr :=
  ustr "Standardizing " ++ str_of_nat (i + 1) ++ ustr "/" ++ str_of_nat total
  ++ ustr ": " ++ name.
Definition msg_empty_content (name : pystr) : pystr :=
  ustr "Empty content in " ++ name ++ ustr ", skipping.".
Definition msg_error_standardizing (name : pystr) (e : exn) : pystr :=
  ustr "Error standardizing " ++ name ++ ustr ": " ++ exn_str e.
Definition msg_standardized (k total : nat) : pystr :=
  emoji_check ++ ustr " Standardized " ++ str_of_nat k ++ ustr "/"
  ++ str_of_nat total ++ ustr " files".

Definition msg_db_connect (e : exn) : pystr :=
  ustr "Error connecting to MongoDB: " ++ exn_str e.
Definition msg_uploading (i total : nat) (name : pystr) : pystr :=
  ustr "Uploading " ++ str_of_nat (i + 1) ++ ustr "/" ++ str_of_nat total
  ++ ustr ": " ++ name.
Definition msg_error_uploading (name : pystr) (e : exn) : pystr :=
  ustr "Error uploading " ++ name ++ ustr ": " ++ exn_str e.
Definition msg_uploaded (k total : nat) : pystr :=
  emoji_check ++ ustr " Uploaded " ++ str_of_nat k ++ ustr "/"
  ++ str_of_nat total ++ ustr " resumes to MongoDB".

Definition msg_validating : pystr :=
  emoji_lens ++ ustr " Validating standardized resumes...".
Definition msg_missing_name (name : pystr) : pystr :=
  emoji_warning ++ ustr " Missing 'name' in " ++ name ++ ustr ". Reprocessing...".
Definition msg_original_not_found (name : pystr) : pystr :=
  emoji_cross ++ ustr " Original file for " ++ name
  ++ ustr " not found in uploaded files.".
Definition msg_reprocessed (name : pystr) : pystr :=
  emoji_check ++ ustr " Reprocessed and standardized: " ++ name.
Definition msg_failed_reparse (name : pystr) : pystr :=
  emoji_cross ++ ustr " Failed to re-parse " ++ name.
Definition msg_error_validating (name : pystr) (e : exn) : pystr :=
  ustr "Error validating " ++ name ++ ustr ": " ++ exn_str e.
Definition msg_reprocessed_n (k : nat) : pystr :=
  emoji_cycle ++ ustr " Reprocessed " ++ str_of_nat k
  ++ ustr " resumes with missing 'name'.".


Section Pipeline.

Variable E : Env.

(** [str(p)] *)
Definition path_str (p : path) : pystr :=
  match p.1 with
  | TempDir => temp_dir E ++ ustr "/" ++ p.2
  | ParsedDir => temp_dir E ++ ustr "/parsed/" ++ p.2
  | StandardizedDir => temp_dir E ++ ustr "/standardized/" ++ p.2
  end.

(** *** Files *)

(** [with open(p, "wb") as f: f.write(buffer)] *)
Definition write_bytes (p : path) (b : list N) : M unit :=
  modify (set_fs (insert p (FBytes b))).

(** [with open(p, "w", encoding="utf-8") as f: f.write(s)] *)
Definition write_text (p : path) (s : pystr) : M unit :=
  if Json.utf8_encodable s
  then modify (set_fs (insert p (FText s)))
  else modify (set_fs (insert p (FText []))) ;;
       raise (UnicodeEncodeError (ustr "surrogates not allowed")).

(** [with open(p, "w", encoding="utf-8") as f:
       json.dump(v, f, indent=2, ensure_ascii=False)]
    A dump that raises leaves the text written so far. *)
Definition json_dump_file (v : pyval) (p : path) : M unit :=
  match file_dumps v with
  | Ok text =>
      if Json.utf8_encodable text
      then modify (set_fs (insert p (FJson v)))
      else modify (set_fs (insert p (FText (partial_dump E v)))) ;;
           raise (UnicodeEncodeError (ustr "surrogates not allowed"))
  | Raise e => modify (set_fs (insert p (FText (partial_dump E v)))) ;; raise e
  end.

(** [with open(p, encoding="utf-8") as f: json.load(f)], on the files
    [files] of the temporary directory. *)
Definition read_json (files : gmap path fcontent) (p : path) : result pyval :=
  match files !! p with
  | None =>
      Raise (FileNotFoundError
               (ustr "[Errno 2] No such file or directory: '" ++ path_str p
                ++ ustr "'"))
  | Some (FJson v) => Ok v
  | Some (FText s) => json_loads E s
  | Some (FBytes b) => json_load_bytes E b
  end.

Definition json_load_file (p : path) : M pyval :=
  files ← gets fs; lift (read_json files p).

(** [p.exists()] *)
Definition path_exists (p : path) : M bool :=
  gets (λ w, bool_decide (is_Some (fs w !! p))).

(** *** Calls to the collaborators *)

Definition now : M pystr :=
  t ← tick; call CNow;; ret (now_isoformat E t).

Definition do_parse_resume (f : upload) : M pyval :=
  t ← tick; call (CParse (up_name f));; lift (parse_resume E t f).

Definition do_ocr_parse_resume (f : upload) : M pyval :=
  t ← tick; call (COcrParse (up_name f));; lift (ocr_parse_resume E t f).

(** [parser.save_to_json(v, p)]: it raises, or it writes the document. *)
Definition do_save_to_json (v : pyval) (p : path) : M unit :=
  t ← tick; call (CSaveJson p);;
  match save_to_json E t v p with
  | Some e => raise e
  | None => json_dump_file v p
  end.

Definition ResumeStandardizer : M unit :=
  t ← tick; call CStandardizerInit;; raise_if (standardizer_init E t).

Definition do_call_azure_llm (prompt : pystr) : M pystr :=
  t ← tick; call (CLlm prompt);; lift (call_azure_llm E t prompt).

Definition ResumeDBManager : M unit :=
  t ← tick; call CDbInit;; raise_if (db_init E t).

Definition do_insert_or_update_resume (resume_data : pyval) : M unit :=
  t ← tick; call (CDbUpsert resume_data);;
  raise_if (insert_or_update_resume E t resume_data).

(** *** [process_uploaded_files]

    [st.progress(0)] is the event [UiProgressStart]; [st.empty()] shows
    nothing and leaves no event.  Writing the temporary copy of an upload
    and instantiating a parser are local steps that do not raise. *)

(** The body of the [try] of one iteration.  Instantiating the parser
    makes no call of its own. *)
Definition process_try (uploaded_file : upload) : M unit :=
  let file_name := up_name uploaded_file in
  parsed_resume ← do_parse_resume uploaded_file;
  if truthy parsed_resume then
    ts ← now;
    parsed_resume ← lift (py_setitem parsed_resume k_timestamp (PStr ts));
    parsed_resume ← lift (py_setitem parsed_resume k_original_filename
                            (PStr file_name));
    let output_path : path :=
      (ParsedDir, PurePath.stem file_name ++ ustr ".json") in
    json_dump_file parsed_resume output_path;;
    modify (set_processed_files (λ l, l ++ [output_path]));;
    modify (set_count S)
  else
    emit (UiWarning (msg_no_content file_name)).

Definition process_one (total_files i : nat) (uploaded_file : upload) : M unit :=
  let file_name := up_name uploaded_file in
  emit (UiStatus (msg_processing i total_files file_name));;
  let temp_file_path : path := (TempDir, file_name) in
  write_bytes temp_file_path (up_buffer uploaded_file);;
  let file_ext := str_lower E (PurePath.suffix file_name) in
  if negb (bool_decide (file_ext ∈ SUPPORTED_EXTENSIONS E)) then
    emit (UiWarning (msg_unsupported file_name file_ext))
  else
    try_except (process_try uploaded_file)
      (λ e, emit (UiError (msg_error_parsing file_name e)));;
    emit (UiProgress (S i) total_files).

Definition process_uploaded_files (uploaded : list upload) : M unit :=
  modify (set_processing_complete false);;
  modify (set_standardizing_complete false);;
  modify (set_db_upload_complete false);;
  modify (set_processed_files (λ _, []));;
  emit (UiWrite (msg_processing_n (length uploaded)));;
  emit UiProgressStart;;
  let total_files := length uploaded in
  modify (set_count (λ _, 0%nat));;
  for_enumerate (process_one total_files) 0 uploaded;;
  processed_count ← gets count;
  emit (UiStatus (msg_processed processed_count total_files));;
  modify (set_processing_complete true).

(** *** [standardize_resumes] *)

(** The body of the [try] of one iteration. *)
Definition standardize_try (file_path output_path : path) : M flow :=
  raw ← json_load_file file_path;
  content ← lift (py_get raw k_content (PStr []));
  links ← lift (py_get raw k_links (PList []));
  stripped ← lift (py_strip content);
  match stripped with
  | [] => emit (UiWarning (msg_empty_content (path_name file_path)));; ret Continue
  | _ =>
      prompt ← lift (make_standardizer_prompt E content links);
      raw_response ← do_call_azure_llm prompt;
      let raw_log_path : path :=
        (StandardizedDir, path_stem file_path ++ ustr "_raw.md") in
      write_text raw_log_path raw_response;;
      cleaned_json ← lift (clean_llm_response E raw_response);
      parsed_json ← lift (json_loads E cleaned_json);
      ts ← now;
      parsed_json ← lift (py_setitem parsed_json k_timestamp (PStr ts));
      parsed_json ← lift (py_setitem parsed_json k_source_file
                            (PStr (path_str file_path)));
      parsed_json ←
        match raw with
        | PDict kvs =>
            match dict_lookup k_original_filename kvs with
            | Some v => lift (py_setitem parsed_json k_original_filename v)
            | None => ret parsed_json
            end
        | _ => ret parsed_json   (* not reached: [raw.get] has returned *)
        end;
      json_dump_file parsed_json output_path;;
      modify (set_standardized_files (λ l, l ++ [output_path]));;
      modify (set_count S);;
      ret Fall
  end.

Definition standardize_one (total_files i : nat) (file_path : path) : M unit :=
  emit (UiStatus (msg_standardizing i total_files (path_name file_path)));;
  let output_path : path := (StandardizedDir, path_name file_path) in
  ex ← path_exists output_path;
  if ex : bool then
    modify (set_standardized_files (λ l, l ++ [output_path]));;
    modify (set_count S);;
    emit (UiProgress (S i) total_files)
  else
    fl ← try_except (standardize_try file_path output_path)
           (λ e, emit (UiError (msg_error_standardizing (path_name file_path) e));;
                 ret Fall);
    match fl with
    | Continue => ret tt
    | Fall => emit (UiProgress (S i) total_files)
    end.

Definition standardize_loop (files_to_standardize : list path) : M unit :=
  let total_files := length files_to_standardize in
  modify (set_count (λ _, 0%nat));;
  for_enumerate (standardize_one total_files) 0 files_to_standardize;;
  standardized_count ← gets count;
  emit (UiStatus (msg_standardized standardized_count total_files));;
  modify (set_standardizing_complete true).

Definition standardize_resumes : M unit :=
  modify (set_standardizing_complete false);;
  modify (set_standardized_files (λ _, []));;
  n ← gets (λ w, length (processed_files w));
  emit (UiWrite (msg_standardizing_n n));;
  emit UiProgressStart;;
  ok ← try_except (ResumeStandardizer;; ret true)
         (λ e, if exn_value_error e
               then emit (UiError (msg_standardizer_init e));; ret false
               else raise e);
  if ok : bool then
    files_to_standardize ← gets processed_files;
    standardize_loop files_to_standardize
  else ret tt.

(** *** [upload_to_mongodb] *)

(** The body of the [try] of one iteration. *)
Definition upload_try (file_path : path) : M unit :=
  resume_data ← json_load_file file_path;
  do_insert_or_update_resume resume_data;;
  modify (set_count S);;
  modify (set_uploaded_files (λ l, l ++ [path_name file_path])).

Definition upload_one (total_files i : nat) (file_path : path) : M unit :=
  emit (UiStatus (msg_uploading i total_files (path_name file_path)));;
  try_except (upload_try file_path)
    (λ e, emit (UiError (msg_error_uploading (path_name file_path) e)));;
  emit (UiProgress (S i) total_files).

Definition upload_loop (files : list path) : M unit :=
  let total_files := length files in
  modify (set_count (λ _, 0%nat));;
  for_enumerate (upload_one total_files) 0 files;;
  uploaded_count ← gets count;
  emit (UiStatus (msg_uploaded uploaded_count total_files));;
  modify (set_db_upload_complete true).

Definition upload_to_mongodb : M unit :=
  modify (set_db_upload_complete false);;
  emit UiProgressStart;;
  ok ← try_except (ResumeDBManager;; ret true)
         (λ e, emit (UiError (msg_db_connect e));; ret false);
  if ok : bool then
    files ← gets standardized_files;
    upload_loop files
  else ret tt.

(** *** [validate_and_reprocess_resumes] *)

(** [next((file for file in uploaded_files
          if Path(file.name).stem == original_file_name), None)] *)
Definition find_original (uploaded : list upload) (original_file_name : pystr)
  : option upload :=
  list_find (λ file, PurePath.stem (up_name file) = original_file_name) uploaded
  ≫= λ r, Some r.2.

(** The repair pass of one record: from [temp_file_path = ...] to the end
    of the [if parsed_resume:] statement. *)
Definition reprocess (file_path : path) (original_file_name : pystr)
    (original_file : upload) : M unit :=
  let temp_file_path : path := (TempDir, up_name original_file) in
  write_bytes temp_file_path (up_buffer original_file);;
  parsed_resume ← do_ocr_parse_resume original_file;
  if truthy parsed_resume then
    let parsed_output_path : path :=
      (ParsedDir, original_file_name ++ ustr ".json") in
    do_save_to_json parsed_resume parsed_output_path;;
    ResumeStandardizer;;
    content ← lift (py_get parsed_resume k_content (PStr []));
    links ← lift (py_get parsed_resume k_links (PList []));
    prompt ← lift (make_standardizer_prompt E content links);
    raw_response ← do_call_azure_llm prompt;
    cleaned_json ← lift (clean_llm_response E raw_response);
    parsed_json ← lift (json_loads E cleaned_json);
    ts ← now;
    parsed_json ← lift (py_setitem parsed_json k_timestamp (PStr ts));
    parsed_json ← lift (py_setitem parsed_json k_source_file
                          (PStr (path_str temp_file_path)));
    parsed_json ← lift (py_setitem parsed_json k_original_filename
                          (PStr (up_name original_file)));
    json_dump_file parsed_json file_path;;
    emit (UiSuccess (msg_reprocessed (path_name file_path)))
  else
    emit (UiError (msg_failed_reparse (up_name original_file))).

(** The body of the [try] of one iteration. *)
Definition validate_try (uploaded : list upload) (file_path : path) : M unit :=
  resume_data ← json_load_file file_path;
  selected ← lift (needs_reprocessing resume_data);
  if selected : bool then
    emit (UiWarning (msg_missing_name (path_name file_path)));;
    modify (set_count S);;
    let original_file_name := path_stem file_path in
    match find_original uploaded original_file_name with
    | None => emit (UiError (msg_original_not_found (path_name file_path)))
    | Some original_file => reprocess file_path original_file_name original_file
    end
  else ret tt.

Definition validate_one (uploaded : list upload) (file_path : path) : M unit :=
  try_except (validate_try uploaded file_path)
    (λ e, emit (UiError (msg_error_validating (path_name file_path) e))).

Definition validate_and_reprocess_resumes (uploaded : list upload) : M unit :=
  emit (UiWrite msg_validating);;
  modify (set_count (λ _, 0%nat));;
  files ← gets standardized_files;
  for_each (validate_one uploaded) files;;
  reprocessed_count ← gets count;
  emit (UiWrite (msg_reprocessed_n reprocessed_count)).

End Pipeline.

(** ** Vocabulary of the properties *)

(** The validity predicate of the design document, in its words: the name
    is present and non-empty, and its first whitespace-delimited token has
    length at least 2. *)
Definition name_valid (resume_data : pyval) : bool :=
  match resume_data with
  | PDict kvs =>
      match dict_lookup k_name kvs with
      | Some (PStr s) =>
          match str_split s with
          | tok :: _ => (2 <=? length tok)%nat
          | [] => false
          end
      | _ => false
      end
  | _ => false
  end.






Definition is_ocr (c : ext_call) : bool :=
  match c with COcrParse _ => true | _ => false end.
Definition is_ocr_for (s : pystr) (c : ext_call) : bool :=
  match c with COcrParse n => str_eqb (PurePath.stem n) s | _ => false end.
Definition is_llm (c : ext_call) : bool :=
  match c with CLlm _ => true | _ => false end.
Definition calls (P : ext_call → bool) (tr : list ext_call) : nat :=
  length (List.filter P tr).

(** The three provenance fields a repair pass stamps on the backend's record. *)
Definition stamp_repaired (ts source_file original_filename : pystr)
    (kvs : list (pystr * pyval)) : list (pystr * pyval) :=
  dict_set k_original_filename (PStr original_filename)
    (dict_set k_source_file (PStr source_file)
       (dict_set k_timestamp (PStr ts) kvs)).

(** A stored record carries a marker: a field that is neither one of the
    backend's nor one of the three provenance fields. *)
Definition validity_marker (backend stored : list (pystr * pyval)) : Prop :=
  ∃ k, k ∈ map fst stored ∧ (k ∉ map fst backend)
       ∧ (k ∉ [k_timestamp; k_source_file; k_original_filename]).

#[global] Instance ui_event_eq_dec : EqDecision ui_event.
Proof. solve_decision. Defined.

(** How many times [ev] is shown in [log]. *)
Definition shown (ev : ui_event) (log : list ui_event) : nat :=
  length (List.filter (λ ev', bool_decide (ev' = ev)) log).

(** The calls one iteration adds: none, or one OCR call on an upload with
    the record's stem, followed by at most one backend call. *)
Definition one_pass (uploaded : list upload) (file_path : path)
    (evs : list ext_call) : Prop :=
  evs = []
  ∨ ∃ f tail, f ∈ uploaded
      ∧ PurePath.stem (up_name f) = path_stem file_path
      ∧ evs = COcrParse (up_name f) :: tail
      ∧ calls is_ocr tail = 0%nat
      ∧ (calls is_llm tail ≤ 1)%nat.




(** ** A concrete environment

    A toy instance used to run the pipeline on explicit inputs: every upload
    parses to the same content, and the backend answers every prompt with a
    record whose name is empty. *)

Module Toy.

Definition lower_char (c : N) : N :=
  if (65 <=? c) && (c <=? 90) then c + 32 else c.

(** The backend's answer: [{"name": ""}] *)
Definition response : pystr := [123; 34] ++ ustr "name" ++ [34; 58; 32; 34; 34; 125].

(** [json.loads], on the two texts the toy runs hand to it. *)
Definition loads (s : pystr) : result pyval :=
  if str_eqb s response then Ok (PDict [(k_name, PStr [])])
  else Raise (JSONDecodeError (ustr "Expecting value: line 1 column 1 (char 0)")).

Definition parsed : pyval :=
  PDict [(k_content, PStr (ustr "Curriculum vitae")); (k_links, PList [])].

Definition env : Env := {|
  temp_dir := ustr "/tmp/resume_processor";
  SUPPORTED_EXTENSIONS := [ustr ".pdf"; ustr ".docx"];
  str_lower := map lower_char;
  now_isoformat := λ _, ustr "2025-01-01T09:00:00.000000";
  parse_resume := λ _ _, Ok parsed;
  ocr_parse_resume := λ _ _, Ok parsed;
  save_to_json := λ _ _ _, None;
  standardizer_init := λ _, None;
  make_standardizer_prompt := λ content _,
    match content with PStr s => Ok s | _ => Ok [] end;
  call_azure_llm := λ _ _, Ok response;
  clean_llm_response := λ s, Ok s;
  json_loads := loads;
  json_load_bytes := λ _,
    Raise (JSONDecodeError (ustr "Expecting value: line 1 column 1 (char 0)"));
  partial_dump := λ _, [];
  db_init := λ _, None;
  insert_or_update_resume := λ _ _, None;
|}.

(** A fresh session over an empty temporary directory. *)
Definition fresh : world := {|
  fs := ∅;
  processing_complete := false;
  standardizing_complete := false;
  db_upload_complete := false;
  processed_files := [];
  standardized_files := [];
  uploaded_files := [];
  ui := [];
  trace := [];
  count := 0%nat;
|}.

(** Two uploads whose names share the stem [cv]. *)
Definition cv_pdf : upload := Upload (ustr "cv.pdf") [37; 80; 68; 70].
Definition cv_docx : upload := Upload (ustr "cv.docx") [80; 75; 3; 4].

(** The state a computation ends in. *)
Definition after {A} (m : M A) (w : world) : world := (m w).2.

(** Steps 1 and 2 of the "Process Resumes" button, then step 3. *)
Definition standardized (uploaded : list upload) : world :=
  after (standardize_resumes env) (after (process_uploaded_files env uploaded) fresh).

Definition validated (uploaded : list upload) : world :=
  after (validate_and_reprocess_resumes env uploaded) (standardized uploaded).

Definition cv_json : path := (StandardizedDir, ustr "cv.json").

(** A record whose name is one blank, and a record with an accent. *)
Definition blank_record : pyval := PDict [(k_name, PStr [32])].
Definition jose : pyval := PDict [(k_name, PStr (ustr "Jos" ++ [233]))].

Definition with_file (p : path) (v : pyval) : world :=
  set_standardized_files (λ _, [p]) (set_fs (insert p (FJson v)) fresh).

Definition cv_parsed : path := (ParsedDir, ustr "cv.json").

(** The session after step 1 on [cv.pdf]. *)
Definition parsed_cv : world := after (process_uploaded_files env [cv_pdf]) fresh.

Definition empty_name_record : pyval := PDict [(k_name, PStr [])].
Definition other_pdf : upload := Upload (ustr "other.pdf") [37; 80; 68; 70].

End Toy.


(** ** More of the module

    The remaining code of [main.py] that works on the values and the session
    modelled above: the third download payload and the file names of the
    downloads, the "Process Resumes" button, the choice of a candidate or a
    resume from a list of labels, the confirmation of a deletion, and the
    tracking of the uploaded names. *)

(** [v] holds an object of a class that [json] cannot write. *)
Fixpoint has_object (v : pyval) : bool :=
  match v with
  | PDict kvs =>
      (fix any (l : list (pystr * pyval)) : bool :=
         match l with
         | [] => false
         | (_, x) :: l' => has_object x || any l'
         end) kvs
  | PList l => existsb has_object l
  | PObj _ _ => true
  | _ => false
  end.

(** [v] holds an object that is not an [ObjectId]. *)
Fixpoint has_other_object (v : pyval) : bool :=
  match v with
  | PDict kvs =>
      (fix any (l : list (pystr * pyval)) : bool :=
         match l with
         | [] => false
         | (_, x) :: l' => has_other_object x || any l'
         end) kvs
  | PList l => existsb has_other_object l
  | PObj ty _ => negb (str_eqb ty ObjectId_name)
  | _ => false
  end.

(** The [repr] of every float of [v] is ASCII, as [float.__repr__] gives it. *)
Fixpoint ascii_floats (v : pyval) : bool :=
  match v with
  | PDict kvs =>
      (fix all (l : list (pystr * pyval)) : bool :=
         match l with
         | [] => true
         | (_, x) :: l' => ascii_floats x && all l'
         end) kvs
  | PList l => forallb ascii_floats l
  | PFloat r => Json.is_ascii r
  | _ => true
  end.

(** The payload of [job_matcher_page]: [json_str = json.dumps(new_res, indent=2)],
    on the retailored resume as the retailor returned it. *)
Definition download_payload_job_matcher (new_res : pyval) : result pystr :=
  Json.dumps true (Some 2%nat) new_res.

(** The results of a sequence of steps: the list of their values, or the
    first exception. *)
Fixpoint collect {A} (rs : list (result A)) : result (list A) :=
  match rs with
  | [] => Ok []
  | Ok a :: rs' => match collect rs' with Ok l => Ok (a :: l) | Raise e => Raise e end
  | Raise e :: _ => Raise e
  end.

(** The first word of [s]: its first run of characters that are not
    whitespace. *)
Fixpoint span_word (s : pystr) : pystr :=
  match s with
  | c :: s' => if is_space c then [] else c :: span_word s'
  | [] => []
  end.

Definition first_word (s : pystr) : pystr := span_word (lstrip s).

Definition standardized_path (p : path) : path := (StandardizedDir, path_name p).


(** The records handed to the store, in the order of the calls. *)
Definition upserted (tr : list ext_call) : list pyval :=
  omap (λ c, match c with CDbUpsert r => Some r | _ => None end) tr.

Definition is_upsert (c : ext_call) : bool :=
  match c with CDbUpsert _ => true | _ => false end.

Definition msg_parsing_complete : pystr :=
  emoji_check ++ ustr " Parsing complete!".
Definition msg_standardization_complete : pystr :=
  emoji_check ++ ustr " Standardization complete!".
Definition msg_upload_complete : pystr :=
  emoji_check ++ ustr " Database upload complete!".

(** How many of the parsed files [xs] have no standardized file in [files]. *)
Definition lacking (files : gmap path fcontent) (xs : list path) : nat :=
  length (filter (λ p, files !! standardized_path p = None) xs).

Section MorePipeline.

Variable E : Env.

(** [file_ext not in parser.SUPPORTED_EXTENSIONS] is false for this upload. *)
Definition supported (f : upload) : Prop :=
  str_lower E (PurePath.suffix (up_name f)) ∈ SUPPORTED_EXTENSIONS E.

#[global] Instance supported_dec (f : upload) : Decision (supported f).
Proof. unfold supported. apply _. Defined.

(** *** The "Process Resumes" button

    The body of [if st.button("Process Resumes")]: the four stages in a
    row, each success line shown when its stage has returned.  The spinner
    around them shows nothing of its own. *)

Definition process_resumes_clicked (uploaded : list upload) : M unit :=
  process_uploaded_files E uploaded;;
  emit (UiSuccess msg_parsing_complete);;
  standardize_resumes E;;
  emit (UiSuccess msg_standardization_complete);;
  validate_and_reprocess_resumes E uploaded;;
  upload_to_mongodb E;;
  emit (UiSuccess msg_upload_complete).

End MorePipeline.

(** *** Choosing from a list of labels

    [fmt v] is [format(v, '')], what an f-string puts in place of [{v}], and
    [str_repr s] is [repr(s)]; the code below does not depend on what they
    print. *)

Definition k_email : pystr := ustr "email".
Definition k_phone : pystr := ustr "phone".
Definition k_id : pystr := ustr "_id".

Definition ValueError (msg : pystr) : exn := Exn (ustr "ValueError") true msg.

Section Labels.

Variable fmt : pyval → pystr.
Variable str_repr : pystr → pystr.

(** Job Description Matcher:
    [f"{c.get('name', 'Unknown')} | {c.get('email', 'No email')} | {c.get('phone', 'No phone')}"] *)
Definition candidate_option (c : pyval) : result pystr :=
  name ← py_get c k_name (PStr (ustr "Unknown"));
  email ← py_get c k_email (PStr (ustr "No email"));
  phone ← py_get c k_phone (PStr (ustr "No phone"));
  Ok (fmt name ++ ustr " | " ++ fmt email ++ ustr " | " ++ fmt phone).

(** [options.index(selected)] *)
Definition list_index (selected : pystr) (options : list pystr) : result nat :=
  match list_find (λ o, o = selected) options with
  | Some (idx, _) => Ok idx
  | None => Raise (ValueError (str_repr selected ++ ustr " is not in list"))
  end.

(** The candidate the page works on: none when the query finds nothing, the
    only one, or, of several, the one at the index of the label [selected]
    that the select box returned. *)
Definition select_candidate (results : list pyval) (selected : pystr)
  : result (option pyval) :=
  match results with
  | [] => Ok None
  | [c] => Ok (Some c)
  | _ =>
      options ← collect (map candidate_option results);
      idx ← list_index selected options;
      match results !! idx with
      | Some c => Ok (Some c)
      | None => Raise (IndexError (ustr "list index out of range"))
      end
  end.

(** Database Management:
    [f"{res.get('name', 'Unknown')} - {res.get('email', 'No email')}"] *)
Definition display_text (res : pyval) : result pystr :=
  name ← py_get res k_name (PStr (ustr "Unknown"));
  email ← py_get res k_email (PStr (ustr "No email"));
  Ok (fmt name ++ ustr " - " ++ fmt email).

(** [for res in results: ...; options.append(display_text);
     display_map[display_text] = res] *)
Fixpoint display_loop (results : list pyval) (options : list pystr)
    (display_map : list (pystr * pyval))
  : result (list pystr * list (pystr * pyval)) :=
  match results with
  | [] => Ok (options, display_map)
  | res :: rest =>
      text ← display_text res;
      display_loop rest (options ++ [text]) (dict_set text res display_map)
  end.

(** [display_map.get(selected)] *)
Definition selected_resume (display_map : list (pystr * pyval)) (selected : pystr)
  : option pyval :=
  dict_lookup selected display_map.



(** *** Deleting a resume

    One run of the script over the confirmation panel of the Database
    Management page, on the resume [selected_resume] shown above it.  A
    button returns [True] in the run its click starts, so a run sees at most
    one click, and only of a button it draws. *)

Inductive click := NoClick | ClickDelete | ClickConfirm | ClickCancel.

Inductive page_event :=
  | PgError (s : pystr)
  | PgSuccess (s : pystr)
  | PgInfo (s : pystr).

Inductive db_call :=
  | DbDelete (query : pyval)       (* db_manager.delete_resume(query) *)
  | DbFindAll.                     (* db_manager.find({}) *)

(** The two entries of [st.session_state] the panel uses, what it shows and
    the calls it makes. *)
Record db_page := DbPage {
  delete_confirmation : bool;
  all_resumes_results : list pyval;
  page_log : list page_event;
  db_trace : list db_call;
}.

Record DbEnv := {
  delete_resume : nat → pyval → option exn;
  find_all : nat → result (list pyval);
}.

Variable D : DbEnv.

Definition msg_are_you_sure : pystr :=
  emoji_warning
  ++ ustr " Are you sure you want to delete this resume? This action cannot be undone.".
Definition msg_deleted (name : pyval) : pystr :=
  emoji_check ++ ustr " Deleted resume: " ++ fmt name.
Definition msg_error_deleting (e : exn) : pystr :=
  ustr "Error deleting resume: " ++ exn_str e.
Definition msg_canceled : pystr := ustr "Deletion canceled.".

Definition page_show (ev : page_event) (s : db_page) : db_page :=
  DbPage (delete_confirmation s) (all_resumes_results s) (page_log s ++ [ev])
    (db_trace s).
Definition page_call (c : db_call) (s : db_page) : db_page :=
  DbPage (delete_confirmation s) (all_resumes_results s) (page_log s)
    (db_trace s ++ [c]).
Definition set_delete_confirmation (b : bool) (s : db_page) : db_page :=
  DbPage b (all_resumes_results s) (page_log s) (db_trace s).
Definition set_all_resumes_results (l : list pyval) (s : db_page) : db_page :=
  DbPage (delete_confirmation s) l (page_log s) (db_trace s).

(** The [try] under "Yes, Delete" with its handler. *)
Definition confirm_delete (resume : list (pystr * pyval)) (s : db_page) : db_page :=
  match dict_lookup k_id resume with
  | None => page_show (PgError (msg_error_deleting (KeyError (str_repr k_id)))) s
  | Some id =>
      let query := PDict [(k_id, id)] in
      let t := length (db_trace s) in
      let s := page_call (DbDelete query) s in
      match delete_resume D t query with
      | Some e => page_show (PgError (msg_error_deleting e)) s
      | None =>
          let s :=
            page_show (PgSuccess (msg_deleted
                                    (default (PStr (ustr "Unknown"))
                                       (dict_lookup k_name resume)))) s in
          let t := length (db_trace s) in
          let s := page_call DbFindAll s in
          match find_all D t with
          | Raise e => page_show (PgError (msg_error_deleting e)) s
          | Ok results =>
              set_delete_confirmation false (set_all_resumes_results results s)
          end
      end
  end.

Definition delete_panel (resume : list (pystr * pyval)) (c : click)
    (s : db_page) : db_page :=
  if negb (delete_confirmation s) then
    match c with
    | ClickDelete => set_delete_confirmation true s
    | _ => s
    end
  else
    let s := page_show (PgError msg_are_you_sure) s in
    let s := match c with ClickConfirm => confirm_delete resume s | _ => s end in
    match c with
    | ClickCancel => set_delete_confirmation false (page_show (PgInfo msg_canceled) s)
    | _ => s
    end.

(** A session of runs, each with the resume selected and the click it sees. *)
Fixpoint delete_runs (runs : list (list (pystr * pyval) * click)) (s : db_page)
  : db_page :=
  match runs with
  | [] => s
  | (resume, c) :: rest => delete_runs rest (delete_panel resume c s)
  end.

End Labels.

(** *** Tracking the uploaded names

    [sorted] on a list of strings: strings compare by code point. *)

Fixpoint str_leb (a b : pystr) : bool :=
  match a, b with
  | [], _ => true
  | _ :: _, [] => false
  | x :: a', y :: b' =>
      if x <? y then true else if y <? x then false else str_leb a' b'
  end.

Fixpoint insert_sorted (x : pystr) (l : list pystr) : list pystr :=
  match l with
  | [] => [x]
  | y :: l' => if str_leb x y then x :: l else y :: insert_sorted x l'
  end.

Definition py_sorted (l : list pystr) : list pystr := foldr insert_sorted [] l.

(** The session with the entry [uploaded_file_names] beside it. *)
Record upload_page := UploadPage {
  session : world;
  uploaded_file_names : list pystr;
}.

(** The session after
    [processing_complete = standardizing_complete = db_upload_complete = False]
    and [processed_files = standardized_files = uploaded_files = []]. *)
Definition reset_session (w : world) : world :=
  set_uploaded_files (λ _, [])
    (set_standardized_files (λ _, [])
       (set_processed_files (λ _, [])
          (set_db_upload_complete false
             (set_standardizing_complete false
                (set_processing_complete false w))))).

(** [if uploaded_files:
        current_file_names = [file.name for file in uploaded_files]
        if sorted(current_file_names) != sorted(st.session_state.uploaded_file_names):
            ...] *)
Definition track_uploads (uploaded : list upload) (s : upload_page) : upload_page :=
  match uploaded with
  | [] => s
  | _ =>
      let current_file_names := up_name <$> uploaded in
      if bool_decide (py_sorted current_file_names
                      ≠ py_sorted (uploaded_file_names s))
      then UploadPage (reset_session (session s)) current_file_names
      else s
  end.

(** [sorted(a) <= sorted(b)] on strings, as a relation. *)
Definition str_le (a b : pystr) : Prop := str_leb a b = true.

(** *** Sample values for the code above *)

Module Demo.

(** The toy environment with other outcomes for the two constructors and
    the OCR parser. *)
Definition env_with (init db : nat → option exn)
    (ocr : nat → upload → result pyval) : Env := {|
  temp_dir := temp_dir Toy.env;
  SUPPORTED_EXTENSIONS := SUPPORTED_EXTENSIONS Toy.env;
  str_lower := str_lower Toy.env;
  now_isoformat := now_isoformat Toy.env;
  parse_resume := parse_resume Toy.env;
  ocr_parse_resume := ocr;
  save_to_json := save_to_json Toy.env;
  standardizer_init := init;
  make_standardizer_prompt := make_standardizer_prompt Toy.env;
  call_azure_llm := call_azure_llm Toy.env;
  clean_llm_response := clean_llm_response Toy.env;
  json_loads := json_loads Toy.env;
  json_load_bytes := json_load_bytes Toy.env;
  partial_dump := partial_dump Toy.env;
  db_init := db;
  insert_or_update_resume := insert_or_update_resume Toy.env;
|}.

Definition missing_config : exn := ValueError (ustr "Missing Azure OpenAI configuration").
Definition timed_out : exn := Exn (ustr "ServerSelectionTimeoutError") false (ustr "timed out").

Definition env_no_standardizer : Env :=
  env_with (λ _, Some missing_config) (λ _, None) (λ _ _, Ok Toy.parsed).
Definition env_no_store : Env :=
  env_with (λ _, None) (λ _, Some timed_out) (λ _ _, Ok Toy.parsed).
Definition env_no_ocr : Env :=
  env_with (λ _, None) (λ _, None) (λ _ _, Ok (PDict [])).

(** A session whose only parsed file has a content of whitespace. *)
Definition blank_content : list (pystr * pyval) := [(k_content, PStr [32; 10])].
Definition parsed_blank : world :=
  set_processed_files (λ _, [Toy.cv_parsed])
    (set_fs (insert Toy.cv_parsed (FJson (PDict blank_content))) Toy.fresh).

(** [format] and [repr] on the strings of the samples. *)
Definition fmt (v : pyval) : pystr :=
  match v with PStr s => s | _ => ustr "None" end.
Definition str_repr (s : pystr) : pystr := [39] ++ s ++ [39].

Definition ana (id : string) : pyval :=
  PDict [(k_id, PObj ObjectId_name (ustr id)); (k_name, PStr (ustr "Ana Ruiz"));
         (k_email, PStr (ustr "ana@example.org"))].
Definition ben : pyval :=
  PDict [(k_id, PObj ObjectId_name (ustr "65a3")); (k_name, PStr (ustr "Ben Ode"));
         (k_email, PStr (ustr "ben@example.org"))].

(** A store that deletes and lists without an exception, and one whose
    deletion raises. *)
Definition db : DbEnv := {|
  delete_resume := λ _ _, None;
  find_all := λ _, Ok [ben];
|}.
Definition db_down : DbEnv := {|
  delete_resume := λ _ _, Some timed_out;
  find_all := λ _, Ok [ben];
|}.

Definition ana_record : list (pystr * pyval) :=
  [(k_id, PObj ObjectId_name (ustr "65a1")); (k_name, PStr (ustr "Ana Ruiz"))].

(** The page with [ana] and [ben] listed, before and after "Delete Resume". *)
Definition listing : db_page := DbPage false [ana "65a1"; ben] [] [].
Definition confirming : db_page := DbPage true [ana "65a1"; ben] [] [].

(** The upload page after a click on "Process Resumes" over two uploads. *)
Definition processed_page : upload_page :=
  UploadPage (Toy.standardized [Toy.cv_pdf; Toy.other_pdf])
    [ustr "cv.pdf"; ustr "other.pdf"].

End Demo.

(** * Properties *)

Arguments msg_processing_n : simpl never.
Arguments msg_processing : simpl never.
Arguments msg_unsupported : simpl never.
Arguments msg_no_content : simpl never.
Arguments msg_error_parsing : simpl never.
Arguments msg_processed : simpl never.
Arguments msg_standardizing_n : simpl never.
Arguments msg_standardizer_init : simpl never.
Arguments msg_standardizing : simpl never.
Arguments msg_empty_content : simpl never.
Arguments msg_error_standardizing : simpl never.
Arguments msg_standardized : simpl never.
Arguments msg_db_connect : simpl never.
Arguments msg_uploading : simpl never.
Arguments msg_error_uploading : simpl never.
Arguments msg_uploaded : simpl never.
Arguments msg_validating : simpl never.
Arguments msg_missing_name : simpl never.
Arguments msg_original_not_found : simpl never.
Arguments msg_reprocessed : simpl never.
Arguments msg_failed_reparse : simpl never.
Arguments msg_error_validating : simpl never.
Arguments msg_reprocessed_n : simpl never.
Arguments ustr : simpl never.
Arguments path_str : simpl never.
Arguments str_of_nat : simpl never.
Arguments path_name : simpl never.
Arguments path_stem : simpl never.
Arguments read_json : simpl never.
Arguments needs_reprocessing : simpl never.
Arguments find_original : simpl never.
Arguments Nat.ltb : simpl never.
Arguments Nat.leb : simpl never.

(** Unfolds the plumbing of [M], leaving the statements of the stage. *)
Ltac munfold :=
  unfold mbind, mret, M_bind, M_ret, result_bind, result_ret, bind, ret, raise,
    lift, modify, gets, emit, call, tick, try_except, raise_if in *.

Ltac mstep := repeat (munfold; simpl in *).

(** ** [convert_objectid_to_str] *)

Lemma convert_dict kvs :
  convert_objectid_to_str (PDict kvs) = PDict (convert_items kvs).
Proof.
  simpl. f_equal. induction kvs as [|[k v] kvs IH]; simpl; [done|].
  by rewrite IH.
Qed.

Lemma has_objectid_dict kvs :
  has_objectid (PDict kvs) = existsb (λ kv, has_objectid kv.2) kvs.
Proof.
  simpl. induction kvs as [|[k v] kvs IH]; simpl; [done|]. by rewrite IH.
Qed.

Lemma convert_idempotent obj :
  convert_objectid_to_str (convert_objectid_to_str obj)
  = convert_objectid_to_str obj.
Proof.
  induction obj as [| | | | |l IH|kvs IH|ty s] using pyval_rect_nested;
    try reflexivity.
  - cbn [convert_objectid_to_str]. f_equal.
    induction IH as [|x l Hx _ IHl]; simpl; [done|]. by rewrite Hx, IHl.
  - rewrite !convert_dict. f_equal. unfold convert_items.
    induction IH as [|[k v] l Hx _ IHl]; simpl in *; [done|].
    by rewrite Hx, IHl.
  - simpl. destruct (str_eqb ty ObjectId_name) eqn:E; simpl; [done|].
    by rewrite E.
Qed.

Lemma convert_no_objectid obj :
  has_objectid obj = false → convert_objectid_to_str obj = obj.
Proof.
  induction obj as [| | | | |l IH|kvs IH|ty s] using pyval_rect_nested;
    try reflexivity.
  - cbn [convert_objectid_to_str has_objectid]. intros H. f_equal.
    induction IH as [|x l Hx _ IHl]; simpl in *; [done|].
    apply orb_false_iff in H as [H1 H2]. by rewrite Hx, IHl.
  - rewrite convert_dict, has_objectid_dict. intros H. f_equal.
    unfold convert_items.
    induction IH as [|[k v] l Hx _ IHl]; simpl in *; [done|].
    apply orb_false_iff in H as [H1 H2]. by rewrite Hx, IHl.
  - simpl. by intros ->.
Qed.

Lemma convert_has_no_objectid obj :
  has_objectid (convert_objectid_to_str obj) = false.
Proof.
  induction obj as [| | | | |l IH|kvs IH|ty s] using pyval_rect_nested;
    try reflexivity.
  - cbn [convert_objectid_to_str has_objectid].
    induction IH as [|x l Hx _ IHl]; simpl; [done|]. by rewrite Hx, IHl.
  - rewrite convert_dict, has_objectid_dict. unfold convert_items.
    induction IH as [|[k v] l Hx _ IHl]; simpl in *; [done|].
    by rewrite Hx, IHl.
  - simpl. destruct (str_eqb ty ObjectId_name) eqn:E; simpl; done.
Qed.

(** C9.  [convert_objectid_to_str] is idempotent; on a value that holds no
    [ObjectId] it is the identity; and it rebuilds its argument shape for
    shape: a dict keeps its keys in their order, a list its length and
    order, each with the converted values, an [ObjectId] becomes its string
    form and every other leaf is returned as it is. *)
Theorem convert_objectid_to_str_spec (obj : pyval) :
  convert_objectid_to_str (convert_objectid_to_str obj)
  = convert_objectid_to_str obj
  ∧ (has_objectid obj = false → convert_objectid_to_str obj = obj)
  ∧ has_objectid (convert_objectid_to_str obj) = false
  ∧ match obj with
    | PDict kvs =>
        convert_objectid_to_str obj
        = PDict (map (λ kv, (kv.1, convert_objectid_to_str kv.2)) kvs)
    | PList l => convert_objectid_to_str obj = PList (map convert_objectid_to_str l)
    | PObj ty s =>
        convert_objectid_to_str obj
        = if bool_decide (ty = ObjectId_name) then PStr s else obj
    | _ => convert_objectid_to_str obj = obj
    end.
Proof.
  split; [apply convert_idempotent|].
  split; [apply convert_no_objectid|].
  split; [apply convert_has_no_objectid|].
  destruct obj; try reflexivity. apply convert_dict.
Qed.

Lemma convert_objectid_to_str_spec_witness :
  convert_objectid_to_str (PList [PInt 7; PStr (ustr "x")])
  = PList [PInt 7; PStr (ustr "x")].
Proof.
  apply (proj1 (proj2 (convert_objectid_to_str_spec
                         (PList [PInt 7; PStr (ustr "x")])))).
  reflexivity.
Defined.

(** ** The download payloads *)

(** C7.  The two download payloads are built by [json.dumps(..., indent=2)],
    which escapes: for the record whose name is [Jos] followed by U+00E9 both payloads spell the
    accent as the six characters of its escape and hold no character
    outside ASCII, while the dump the pipeline uses for its own files, on
    the same record, keeps the accent. *)
Theorem download_payload_escapes_non_ascii :
  let escaped :=
    ustr "{" ++ [10] ++ ustr "  " ++ [34] ++ ustr "name" ++ [34] ++ ustr ": "
    ++ [34] ++ ustr "Jos\u00e9" ++ [34; 10] ++ ustr "}" in
  let literal :=
    ustr "{" ++ [10] ++ ustr "  " ++ [34] ++ ustr "name" ++ [34] ++ ustr ": "
    ++ [34] ++ ustr "Jos" ++ [233] ++ [34; 10] ++ ustr "}" in
  download_payload Toy.jose = Ok escaped
  ∧ download_payload_retailor Toy.jose = Ok escaped
  ∧ Json.is_ascii escaped = true
  ∧ file_dumps Toy.jose = Ok literal.
Proof. vm_compute. done. Qed.

(** ** The name check *)

(** Where the check of [validate_and_reprocess_resumes] returns, it selects
    exactly the records that are not valid. *)
Lemma needs_reprocessing_sound resume_data b :
  needs_reprocessing resume_data = Ok b → b = negb (name_valid resume_data).
Proof.
  unfold needs_reprocessing, name_valid, py_get.
  destruct resume_data as [| | | | | |kvs|]; try discriminate.
  munfold. destruct (dict_lookup k_name kvs) as [name|] eqn:Hl; simpl.
  - destruct (truthy name) eqn:Ht; simpl.
    + unfold first_token_len.
      destruct name as [| | | |s| | |]; simpl; try discriminate.
      destruct (str_split s) as [|tok toks]; [discriminate|].
      simpl. intros [= <-]. apply Nat.ltb_antisym.
    + intros [= <-]. destruct name as [| | | |s| | |]; try done.
      destruct s; [done | discriminate].
  - by intros [= <-].
Qed.

(** A name made of whitespace only has no token. *)
Lemma str_split_blank s : forallb is_space s = true → str_split s = [].
Proof.
  unfold str_split. induction s as [|c s IH]; simpl; [done|].
  intros [-> ?]%andb_true_iff. auto.
Qed.

Lemma needs_reprocessing_blank kvs s :
  dict_lookup k_name kvs = Some (PStr s) → s ≠ [] → forallb is_space s = true →
  needs_reprocessing (PDict kvs)
  = Raise (IndexError (ustr "list index out of range")).
Proof.
  intros Hl Hs Hb. unfold needs_reprocessing, py_get. munfold. rewrite Hl. simpl.
  destruct s; [done|]. simpl. unfold first_token_len.
  by rewrite str_split_blank.
Qed.

(** C3.  The record [{"name": " "}] violates the validity predicate, yet the
    check raises on it instead of selecting it: a run over that record makes
    no call, counts no reprocessed record, leaves the file as it is and
    shows the error of the check. *)
Theorem blank_name_is_not_selected :
  let e := IndexError (ustr "list index out of range") in
  let w := Toy.with_file Toy.cv_json Toy.blank_record in
  let w' := Toy.after (validate_and_reprocess_resumes Toy.env [Toy.cv_pdf]) w in
  name_valid Toy.blank_record = false
  ∧ needs_reprocessing Toy.blank_record = Raise e
  ∧ trace w' = [] ∧ count w' = 0%nat ∧ fs w' = fs w
  ∧ ui w' = [UiWrite msg_validating;
             UiError (msg_error_validating (ustr "cv.json") e);
             UiWrite (msg_reprocessed_n 0)].
Proof. vm_compute. done. Qed.

Local Close Scope N_scope.

Section Stages.

Variable E : Env.

Lemma for_each_cons {A} (body : A → M unit) x xs w w' :
  body x w = (Ok tt, w') →
  for_each body (x :: xs) w = for_each body xs w'.
Proof. intros H. simpl. munfold. by rewrite H. Qed.

Lemma for_enumerate_cons {A} (body : nat → A → M unit) i x xs w w' :
  body i x w = (Ok tt, w') →
  for_enumerate body i (x :: xs) w = for_enumerate body (S i) xs w'.
Proof. intros H. simpl. munfold. by rewrite H. Qed.

(** ** [standardize_resumes] *)

(** C1.  When the output file of a parsed file already exists in the
    standardized directory, under the parsed file's own name (its stem
    followed by [.json]), the iteration makes no call and writes no file:
    it appends the existing path to [standardized_files], counts the file,
    updates the progress bar, and the loop goes on with the next file. *)
Theorem standardize_reuses_existing (total i : nat) (file_path : path)
    (rest : list path) (w : world) :
  is_Some (fs w !! (StandardizedDir, path_name file_path)) →
  ∃ w',
    standardize_one E total i file_path w = (Ok tt, w')
    ∧ trace w' = trace w
    ∧ fs w' = fs w
    ∧ standardized_files w'
      = standardized_files w ++ [(StandardizedDir, path_name file_path)]
    ∧ count w' = S (count w)
    ∧ ui w' = ui w ++ [UiStatus (msg_standardizing i total (path_name file_path));
                       UiProgress (S i) total]
    ∧ for_enumerate (standardize_one E total) i (file_path :: rest) w
      = for_enumerate (standardize_one E total) (S i) rest w'.
Proof.
  intros H.
  assert (∃ w', standardize_one E total i file_path w = (Ok tt, w')
    ∧ trace w' = trace w ∧ fs w' = fs w
    ∧ standardized_files w'
      = standardized_files w ++ [(StandardizedDir, path_name file_path)]
    ∧ count w' = S (count w)
    ∧ ui w' = ui w ++ [UiStatus (msg_standardizing i total (path_name file_path));
                       UiProgress (S i) total]) as (w' & Hrun & Hrest).
  { unfold standardize_one, path_exists. mstep.
    rewrite bool_decide_eq_true_2 by done. mstep.
    eexists. split; [reflexivity|]. simpl.
    by rewrite <- app_assoc. }
  exists w'. repeat split; try apply Hrest; try done.
  by apply for_enumerate_cons.
Qed.

(** ** [validate_and_reprocess_resumes] *)

Lemma find_original_None uploaded s :
  (∀ f, f ∈ uploaded → PurePath.stem (up_name f) ≠ s) →
  find_original uploaded s = None.
Proof.
  intros H. unfold find_original.
  destruct (list_find _ uploaded) as [[j f]|] eqn:Hf; [|done].
  apply list_find_Some in Hf as (Hj & Hs & _).
  exfalso. eapply H; [|exact Hs]. by eapply list_elem_of_lookup_2.
Qed.

(** C10.  A record whose name is a non-empty string of whitespace makes
    the check itself raise [IndexError]: the handler of the iteration
    catches it and shows it as a validation error; nothing else changes
    (no call, no file written, nothing counted), and the loop goes on with
    the remaining records. *)
Theorem blank_name_raises_in_check (uploaded : list upload) (file_path : path)
    (rest : list path) (w : world) (kvs : list (pystr * pyval)) (s : pystr) :
  read_json E (fs w) file_path = Ok (PDict kvs) →
  dict_lookup k_name kvs = Some (PStr s) →
  s ≠ [] →
  forallb is_space s = true →
  let e := IndexError (ustr "list index out of range") in
  ∃ w',
    needs_reprocessing (PDict kvs) = Raise e
    ∧ validate_one E uploaded file_path w = (Ok tt, w')
    ∧ ui w' = ui w ++ [UiError (msg_error_validating (path_name file_path) e)]
    ∧ trace w' = trace w ∧ fs w' = fs w ∧ count w' = count w
    ∧ for_each (validate_one E uploaded) (file_path :: rest) w
      = for_each (validate_one E uploaded) rest w'.
Proof.
  intros Hload Hname Hne Hblank e.
  pose proof (needs_reprocessing_blank kvs s Hname Hne Hblank) as Hcheck.
  assert (validate_one E uploaded file_path w
          = (Ok tt, set_ui (λ l, l ++ [UiError (msg_error_validating
                                                 (path_name file_path) e)]) w))
    as Hrun.
  { unfold validate_one, validate_try, json_load_file. mstep.
    rewrite Hload. by rewrite Hcheck. }
  eexists. split; [exact Hcheck|]. split; [exact Hrun|].
  repeat split. by apply for_each_cons.
Qed.

(** C6.  When a record is selected for reprocessing and no uploaded file
    has its stem, the iteration ends normally: it shows the warning and
    the error naming the record, makes no call and writes no file, so the
    stored record stays as it was, and the loop goes on with the
    remaining records. *)
Theorem missing_original_is_not_fatal (uploaded : list upload)
    (file_path : path) (rest : list path) (w : world) (resume_data : pyval) :
  read_json E (fs w) file_path = Ok resume_data →
  needs_reprocessing resume_data = Ok true →
  (∀ f, f ∈ uploaded → PurePath.stem (up_name f) ≠ path_stem file_path) →
  ∃ w',
    validate_one E uploaded file_path w = (Ok tt, w')
    ∧ ui w' = ui w ++ [UiWarning (msg_missing_name (path_name file_path));
                       UiError (msg_original_not_found (path_name file_path))]
    ∧ fs w' = fs w
    ∧ trace w' = trace w
    ∧ for_each (validate_one E uploaded) (file_path :: rest) w
      = for_each (validate_one E uploaded) rest w'.
Proof.
  intros Hload Hsel Hnone.
  assert (∃ w', validate_one E uploaded file_path w = (Ok tt, w')
    ∧ ui w' = ui w ++ [UiWarning (msg_missing_name (path_name file_path));
                       UiError (msg_original_not_found (path_name file_path))]
    ∧ fs w' = fs w ∧ trace w' = trace w) as (w' & Hrun & Hrest).
  { unfold validate_one, validate_try, json_load_file. mstep.
    rewrite Hload, Hsel, (find_original_None _ _ Hnone). mstep.
    eexists. split; [reflexivity|]. simpl. by rewrite <- app_assoc. }
  exists w'. split; [done|]. repeat split; try apply Hrest.
  by apply for_each_cons.
Qed.

Lemma dict_lookup_set_eq k v kvs : dict_lookup k (dict_set k v kvs) = Some v.
Proof.
  induction kvs as [|[k' v'] kvs IH]; simpl.
  - unfold str_eqb. by rewrite bool_decide_eq_true_2.
  - destruct (str_eqb k' k) eqn:Hk; simpl; by rewrite Hk.
Qed.

Lemma dict_lookup_set_ne k k' v kvs :
  k ≠ k' → dict_lookup k' (dict_set k v kvs) = dict_lookup k' kvs.
Proof.
  intros Hne. induction kvs as [|[k0 v0] kvs IH]; simpl.
  - unfold str_eqb. by rewrite bool_decide_eq_false_2.
  - destruct (str_eqb k0 k) eqn:Hk; simpl.
    + apply bool_decide_eq_true_1 in Hk as ->. unfold str_eqb.
      by rewrite !bool_decide_eq_false_2.
    + by rewrite IH.
Qed.

Lemma py_setitem_Ok v k x v' :
  py_setitem v k x = Ok v' → ∃ kvs, v = PDict kvs ∧ v' = PDict (dict_set k x kvs).
Proof. destruct v; try discriminate. intros [= <-]. eauto. Qed.

(** C8.  When an iteration standardizes a parsed file (the output did not
    exist and the file is counted), the record it has written carries
    [timestamp], the clock read after the backend call, and
    [source_file], the parsed file's path as a string; and when the parsed
    input carries [original_filename], the record carries the same value
    under the same key. *)
Theorem standardize_stamps_provenance (total i : nat) (file_path : path)
    (w w' : world) :
  fs w !! (StandardizedDir, path_name file_path) = None →
  standardize_one E total i file_path w = (Ok tt, w') →
  count w' = S (count w) →
  ∃ raw record,
    read_json E (fs w) file_path = Ok raw
    ∧ fs w' !! (StandardizedDir, path_name file_path)
      = Some (FJson (PDict record))
    ∧ dict_lookup k_timestamp record
      = Some (PStr (now_isoformat E (S (length (trace w)))))
    ∧ dict_lookup k_source_file record = Some (PStr (path_str E file_path))
    ∧ (∀ kvs v, raw = PDict kvs →
                dict_lookup k_original_filename kvs = Some v →
                dict_lookup k_original_filename record = Some v)
    ∧ standardized_files w'
      = standardized_files w ++ [(StandardizedDir, path_name file_path)].
Proof.
  intros Hnone Hrun Hcount.
  unfold standardize_one, path_exists, standardize_try, json_load_file,
    do_call_azure_llm, now, write_text, json_dump_file in *.
  mstep. rewrite Hnone in Hrun.
  rewrite bool_decide_eq_false_2 in Hrun by (by intros [? ?]).
  repeat (case_match; simplify_eq/=); try lia.
  all: repeat match goal with
         | H : py_setitem _ _ _ = Ok _ |- _ =>
             apply py_setitem_Ok in H as (? & ? & ?); simplify_eq
         end.
  all: eexists _, _; split; [reflexivity|];
    split; [by rewrite lookup_insert_eq|].
  all: rewrite length_app, Nat.add_1_r.
  all: repeat split; try done.
  all: try (intros ? ? [= <-] ?; simplify_eq).
  all: rewrite ?(dict_lookup_set_ne k_original_filename k_timestamp),
         ?(dict_lookup_set_ne k_original_filename k_source_file),
         ?(dict_lookup_set_ne k_source_file k_timestamp)
         by (intros Hk; vm_compute in Hk; discriminate).
  all: by rewrite dict_lookup_set_eq.
Qed.

Lemma find_original_Some uploaded s f :
  find_original uploaded s = Some f → f ∈ uploaded ∧ PurePath.stem (up_name f) = s.
Proof.
  unfold find_original.
  destruct (list_find _ uploaded) as [[j f']|] eqn:Hf; [|done].
  intros [= <-]. apply list_find_Some in Hf as (Hj & Hs & _).
  split; [by eapply list_elem_of_lookup_2 | done].
Qed.

(** A repair pass that runs to its end: its calls, and the files it
    leaves. *)
Lemma reprocess_complete (file_path : path) (original_file_name : pystr)
    (original : upload) (parsed : pyval) (w w' : world) :
  ocr_parse_resume E (length (trace w)) original = Ok parsed →
  truthy parsed = true →
  reprocess E file_path original_file_name original w = (Ok tt, w') →
  ∃ prompt response cleaned kvs,
    call_azure_llm E (3 + length (trace w)) prompt = Ok response
    ∧ clean_llm_response E response = Ok cleaned
    ∧ json_loads E cleaned = Ok (PDict kvs)
    ∧ fs w'
      = <[file_path :=
            FJson (PDict (stamp_repaired
                            (now_isoformat E (4 + length (trace w)))
                            (path_str E (TempDir, up_name original))
                            (up_name original) kvs))]>
          (<[(ParsedDir, original_file_name ++ ustr ".json") := FJson parsed]>
             (<[(TempDir, up_name original) := FBytes (up_buffer original)]>
                (fs w)))
    ∧ trace w' = ((((trace w ++ [COcrParse (up_name original)])
                    ++ [CSaveJson (ParsedDir, original_file_name ++ ustr ".json")])
                   ++ [CStandardizerInit]) ++ [CLlm prompt]) ++ [CNow]
    ∧ ui w' = ui w ++ [UiSuccess (msg_reprocessed (path_name file_path))]
    ∧ count w' = count w.
Proof.
  intros Hocr Htruthy Hrun.
  unfold reprocess, write_bytes, do_ocr_parse_resume, do_save_to_json,
    ResumeStandardizer, do_call_azure_llm, now, json_dump_file in *.
  mstep. rewrite Hocr in Hrun. simpl in Hrun. rewrite Htruthy in Hrun.
  repeat (case_match; simplify_eq/=).
  repeat match goal with
         | H : py_setitem _ _ _ = Ok _ |- _ =>
             apply py_setitem_Ok in H as (? & ? & ?); simplify_eq
         end.
  rewrite ?length_app in *; simpl in *.
  replace (length (trace w) + 1 + 1 + 1 + 1)%nat
    with (S (S (S (S (length (trace w)))))) in * by lia.
  replace (length (trace w) + 1 + 1 + 1)%nat
    with (S (S (S (length (trace w))))) in * by lia.
  eexists _, _, _, _; split; [eassumption|]; split; [eassumption|];
    split; [eassumption|].
  repeat split.
Qed.

(** C4.  A repair pass that runs to its end stores the record the backend
    returned with the three provenance fields set, whatever its name: the
    stored record is kept, the pass is the only one of the iteration (one
    OCR call, one backend call), and nothing in the record or on the page
    tells a still invalid record from a valid one. *)
Theorem repaired_record_is_stored_as_returned (file_path : path)
    (original_file_name : pystr) (original : upload) (parsed : pyval)
    (w w' : world) :
  ocr_parse_resume E (length (trace w)) original = Ok parsed →
  truthy parsed = true →
  reprocess E file_path original_file_name original w = (Ok tt, w') →
  ∃ prompt response cleaned kvs,
    call_azure_llm E (3 + length (trace w)) prompt = Ok response
    ∧ clean_llm_response E response = Ok cleaned
    ∧ json_loads E cleaned = Ok (PDict kvs)
    ∧ fs w' !! file_path
      = Some (FJson (PDict (stamp_repaired
                              (now_isoformat E (4 + length (trace w)))
                              (path_str E (TempDir, up_name original))
                              (up_name original) kvs)))
    ∧ trace w' = trace w ++ [COcrParse (up_name original);
                             CSaveJson (ParsedDir, original_file_name ++ ustr ".json");
                             CStandardizerInit; CLlm prompt; CNow]
    ∧ ui w' = ui w ++ [UiSuccess (msg_reprocessed (path_name file_path))].
Proof.
  intros Hocr Htruthy Hrun.
  destruct (reprocess_complete _ _ _ _ _ _ Hocr Htruthy Hrun)
    as (prompt & response & cleaned & kvs & Hllm & Hclean & Hloads
        & Hfs & Htr & Hui & _).
  exists prompt, response, cleaned, kvs.
  split; [exact Hllm|]. split; [exact Hclean|]. split; [exact Hloads|].
  split; [by rewrite Hfs, lookup_insert_eq|].
  split; [by rewrite Htr, <- !app_assoc | exact Hui].
Qed.

(** *** Counting the calls of a run *)

Lemma calls_app P tr1 tr2 : calls P (tr1 ++ tr2) = (calls P tr1 + calls P tr2)%nat.
Proof. unfold calls. by rewrite List.filter_app, length_app. Qed.

Lemma calls_ocr_for_le s tr : calls (is_ocr_for s) tr ≤ calls is_ocr tr.
Proof.
  unfold calls. induction tr as [|c tr IH]; simpl; [done|].
  destruct c; simpl; try done. destruct (str_eqb _ _); simpl; lia.
Qed.

Lemma validate_one_calls uploaded file_path w :
  ∃ w' evs,
    validate_one E uploaded file_path w = (Ok tt, w')
    ∧ trace w' = trace w ++ evs
    ∧ one_pass uploaded file_path evs
    ∧ standardized_files w' = standardized_files w.
Proof.
  unfold validate_one, validate_try, json_load_file, reprocess, write_bytes,
    do_ocr_parse_resume, do_save_to_json, ResumeStandardizer,
    do_call_azure_llm, now, json_dump_file.
  mstep.
  repeat (case_match; simplify_eq/=).
  all: eexists _, _; split; [reflexivity|]; simpl.
  all: try (split; [by rewrite app_nil_r | split; [by left | done]]).
  all: match goal with
       | H : find_original _ _ = Some _ |- _ =>
           apply find_original_Some in H as [? ?]
       end.
  all: rewrite <- ?app_assoc; simpl.
  all: split; [reflexivity|]; split; [|done].
  all: right; eexists _, _; split; [eassumption|]; split; [eassumption|].
  all: split; [reflexivity|]; split; [reflexivity|]; vm_compute; lia.
Qed.

Lemma one_pass_bounds uploaded file_path evs :
  one_pass uploaded file_path evs →
  calls is_ocr evs ≤ 1
  ∧ calls is_llm evs ≤ calls is_ocr evs
  ∧ ∀ s, calls (is_ocr_for s) evs
         ≤ if bool_decide (path_stem file_path = s) then 1 else 0.
Proof.
  intros [->|(f & tail & _ & Hstem & -> & Hocr & Hllm)].
  { unfold calls. split; [simpl; lia|]. split; [simpl; lia|].
    intros s. case_bool_decide; simpl; lia. }
  change (COcrParse (up_name f) :: tail) with ([COcrParse (up_name f)] ++ tail).
  rewrite !calls_app, Hocr. split; [unfold calls; simpl; lia|].
  split; [unfold calls in *; simpl; lia|].
  intros s. rewrite calls_app. pose proof (calls_ocr_for_le s tail).
  unfold calls at 1. simpl. rewrite Hstem. unfold str_eqb.
  case_bool_decide; simpl; lia.
Qed.

Lemma validate_loop_calls uploaded files w :
  ∃ w' evs,
    for_each (validate_one E uploaded) files w = (Ok tt, w')
    ∧ trace w' = trace w ++ evs
    ∧ calls is_ocr evs ≤ length files
    ∧ calls is_llm evs ≤ calls is_ocr evs
    ∧ ∀ s, calls (is_ocr_for s) evs
           ≤ length (filter (λ p, path_stem p = s) files).
Proof.
  revert w. induction files as [|p files IH]; intros w.
  { exists w, []. simpl. rewrite app_nil_r. repeat split; done. }
  destruct (validate_one_calls uploaded p w) as (w1 & evs1 & Hrun & Htr & Hpass & _).
  destruct (IH w1) as (w2 & evs2 & Hrun2 & Htr2 & Hocr2 & Hllm2 & Hfor2).
  apply one_pass_bounds in Hpass as (Hocr1 & Hllm1 & Hfor1).
  exists w2, (evs1 ++ evs2).
  split; [by rewrite (for_each_cons _ _ _ _ _ Hrun)|].
  split; [by rewrite Htr2, Htr, app_assoc|].
  rewrite !calls_app. simpl. split; [lia|]. split; [lia|].
  intros s. rewrite calls_app. specialize (Hfor1 s). specialize (Hfor2 s).
  rewrite filter_cons. case_bool_decide; case_decide; simpl; try done; lia.
Qed.

Lemma filter_stem_absent {A} (f : A → pystr) (l : list A) s :
  s ∉ f <$> l → filter (λ x, f x = s) l = [].
Proof.
  induction l as [|x l IH]; simpl; [done|].
  rewrite not_elem_of_cons. intros [Hx Hl]. rewrite filter_cons.
  case_decide; [congruence | auto].
Qed.

Lemma filter_stem_NoDup {A} (f : A → pystr) (l : list A) s :
  NoDup (f <$> l) → length (filter (λ x, f x = s) l) ≤ 1.
Proof.
  induction l as [|x l IH]; simpl; [lia|].
  rewrite NoDup_cons. intros [Hx Hl]. rewrite filter_cons.
  case_decide as Hs; [|auto]. simpl.
  rewrite filter_stem_absent; [simpl; lia|]. by rewrite <- Hs.
Qed.

(** C2.  One run of the validation visits every entry of
    [standardized_files] once, and an entry gets at most one repair pass:
    one OCR re-extraction, on an upload that has the record's stem,
    followed by at most one backend call.  A pass that runs to its end
    writes the backend's record back, stamped, after its last call, the
    clock read, whatever the name of that record.  Over the run, a stem is
    re-extracted at most as often as the list holds an entry with that
    stem: never twice when the stems of the list are distinct. *)
Theorem one_repair_pass_per_entry (uploaded : list upload) (w : world) :
  (∀ file_path w0, ∃ w1 evs,
      validate_one E uploaded file_path w0 = (Ok tt, w1)
      ∧ trace w1 = trace w0 ++ evs
      ∧ calls is_ocr evs ≤ 1
      ∧ calls is_llm evs ≤ calls is_ocr evs)
  ∧ (∀ file_path original_file_name original parsed w0 w1,
       ocr_parse_resume E (length (trace w0)) original = Ok parsed →
       truthy parsed = true →
       reprocess E file_path original_file_name original w0 = (Ok tt, w1) →
       ∃ prompt kvs,
         fs w1 !! file_path
         = Some (FJson (PDict (stamp_repaired
                                 (now_isoformat E (4 + length (trace w0)))
                                 (path_str E (TempDir, up_name original))
                                 (up_name original) kvs)))
         ∧ trace w1 = trace w0 ++ [COcrParse (up_name original);
                                   CSaveJson (ParsedDir,
                                              original_file_name ++ ustr ".json");
                                   CStandardizerInit; CLlm prompt; CNow])
  ∧ ∃ w' evs,
      validate_and_reprocess_resumes E uploaded w = (Ok tt, w')
      ∧ trace w' = trace w ++ evs
      ∧ calls is_ocr evs ≤ length (standardized_files w)
      ∧ calls is_llm evs ≤ calls is_ocr evs
      ∧ (∀ s, calls (is_ocr_for s) evs
              ≤ length (filter (λ p, path_stem p = s) (standardized_files w)))
      ∧ (NoDup (path_stem <$> standardized_files w) →
         ∀ s, calls (is_ocr_for s) evs ≤ 1).
Proof.
  split.
  { intros p w0.
    destruct (validate_one_calls uploaded p w0) as (w1 & evs & Hrun & Htr & Hpass & _).
    apply one_pass_bounds in Hpass as (? & ? & _). by exists w1, evs. }
  split.
  { intros p ofn original parsed w0 w1 Hocr Htruthy Hrun.
    destruct (reprocess_complete p ofn original parsed w0 w1 Hocr Htruthy Hrun)
      as (prompt & _ & _ & kvs & _ & _ & _ & Hfs & Htr & _).
    exists prompt, kvs. split; [by rewrite Hfs, lookup_insert_eq|].
    by rewrite Htr, <- !app_assoc. }
  unfold validate_and_reprocess_resumes. mstep.
  match goal with
  | |- context [for_each _ ?fl ?w0] =>
      destruct (validate_loop_calls uploaded fl w0)
        as (w1 & evs & Hrun & Htr & Hocr & Hllm & Hfor)
  end.
  rewrite Hrun. simpl in *.
  eexists _, evs. split; [reflexivity|]. simpl.
  repeat split; try done.
  intros Hnd s. etrans; [apply Hfor|]. by apply filter_stem_NoDup.
Qed.

(** *** The log of a batch *)



















End Stages.

(** The toy run on one upload: the record comes back from its repair with
    an empty name, and what is stored holds the backend's field and the
    three provenance fields, nothing else. *)
Lemma unrepaired_record_has_no_marker :
  ∃ stored,
    fs (Toy.validated [Toy.cv_pdf]) !! Toy.cv_json = Some (FJson (PDict stored))
    ∧ shown (UiSuccess (msg_reprocessed (ustr "cv.json")))
        (ui (Toy.validated [Toy.cv_pdf])) = 1%nat
    ∧ needs_reprocessing (PDict stored) = Ok true
    ∧ name_valid (PDict stored) = false
    ∧ map fst stored = [k_name; k_timestamp; k_source_file; k_original_filename]
    ∧ ¬ validity_marker [(k_name, PStr [])] stored.
Proof.
  eexists. split; [vm_compute; reflexivity|].
  split; [by vm_compute|]. split; [by vm_compute|]. split; [by vm_compute|].
  split; [by vm_compute|].
  intros (k & Hin & Hback & Hprov). simpl in Hin, Hback.
  rewrite !elem_of_cons in Hin.
  destruct Hin as [->|[->|[->|[->|Hin]]]].
  - apply Hback. rewrite !elem_of_cons. auto.
  - apply Hprov. rewrite !elem_of_cons. auto.
  - apply Hprov. rewrite !elem_of_cons. auto.
  - apply Hprov. rewrite !elem_of_cons. auto.
  - by apply elem_of_nil in Hin.
Qed.


(** The toy run on two uploads that share the stem [cv]: the standardized
    list holds the record [cv.json] twice, and one run of the validation
    repairs that record twice. *)
Lemma shared_stem_is_repaired_twice :
  standardized_files (Toy.standardized [Toy.cv_pdf; Toy.cv_docx])
  = [Toy.cv_json; Toy.cv_json]
  ∧ calls (is_ocr_for (ustr "cv"))
      (drop (length (trace (Toy.standardized [Toy.cv_pdf; Toy.cv_docx])))
         (trace (Toy.validated [Toy.cv_pdf; Toy.cv_docx]))) = 2%nat
  ∧ shown (UiSuccess (msg_reprocessed (ustr "cv.json")))
      (ui (Toy.validated [Toy.cv_pdf; Toy.cv_docx])) = 2%nat.
Proof. by vm_compute. Qed.

(** ** The theorems at work on the toy run *)

Lemma standardize_reuses_existing_witness :
  is_Some (fs (Toy.standardized [Toy.cv_pdf]) !! Toy.cv_json)
  ∧ ∃ w', standardize_one Toy.env 1 0 Toy.cv_parsed (Toy.standardized [Toy.cv_pdf])
          = (Ok tt, w')
          ∧ trace w' = trace (Toy.standardized [Toy.cv_pdf]).
Proof.
  assert (is_Some (fs (Toy.standardized [Toy.cv_pdf]) !! Toy.cv_json)) as H.
  { eexists. vm_compute. reflexivity. }
  split; [exact H|].
  destruct (standardize_reuses_existing Toy.env 1 0 Toy.cv_parsed []
              (Toy.standardized [Toy.cv_pdf]) H) as (w' & Hrun & Htr & _).
  exists w'. split; [exact Hrun | exact Htr].
Defined.

Lemma blank_name_raises_in_check_witness :
  ∃ w', validate_one Toy.env [Toy.cv_pdf] Toy.cv_json
          (Toy.with_file Toy.cv_json Toy.blank_record) = (Ok tt, w')
        ∧ trace w' = [].
Proof.
  destruct (blank_name_raises_in_check Toy.env [Toy.cv_pdf] Toy.cv_json []
              (Toy.with_file Toy.cv_json Toy.blank_record)
              [(k_name, PStr [32%N])] [32%N])
    as (w' & _ & Hrun & _ & Htr & _).
  - vm_compute. reflexivity.
  - vm_compute. reflexivity.
  - discriminate.
  - vm_compute. reflexivity.
  - exists w'. split; [exact Hrun | exact Htr].
Defined.

Lemma missing_original_is_not_fatal_witness :
  ∃ w', validate_one Toy.env [Toy.other_pdf] Toy.cv_json
          (Toy.with_file Toy.cv_json Toy.empty_name_record) = (Ok tt, w')
        ∧ fs w' = fs (Toy.with_file Toy.cv_json Toy.empty_name_record).
Proof.
  destruct (missing_original_is_not_fatal Toy.env [Toy.other_pdf] Toy.cv_json []
              (Toy.with_file Toy.cv_json Toy.empty_name_record)
              Toy.empty_name_record)
    as (w' & Hrun & _ & Hfs & _).
  - vm_compute. reflexivity.
  - vm_compute. reflexivity.
  - intros f Hf. apply list_elem_of_singleton in Hf. subst f.
    vm_compute. discriminate.
  - exists w'. split; [exact Hrun | exact Hfs].
Defined.

Lemma standardize_stamps_provenance_witness :
  ∃ record,
    fs (Toy.after (standardize_one Toy.env 1 0 Toy.cv_parsed) Toy.parsed_cv)
      !! Toy.cv_json = Some (FJson (PDict record))
    ∧ dict_lookup k_original_filename record = Some (PStr (ustr "cv.pdf")).
Proof.
  destruct (standardize_stamps_provenance Toy.env 1 0 Toy.cv_parsed Toy.parsed_cv
              (Toy.after (standardize_one Toy.env 1 0 Toy.cv_parsed) Toy.parsed_cv))
    as (raw & record & Hraw & Hfs & _ & _ & Horig & _).
  - vm_compute. reflexivity.
  - vm_compute. reflexivity.
  - vm_compute. reflexivity.
  - exists record. split; [exact Hfs|].
    vm_compute in Hraw. injection Hraw as <-.
    eapply Horig; [reflexivity|]. vm_compute. reflexivity.
Defined.

Lemma repaired_record_is_stored_as_returned_witness :
  ∃ kvs,
    json_loads Toy.env Toy.response = Ok (PDict kvs)
    ∧ fs (Toy.after (reprocess Toy.env Toy.cv_json (ustr "cv") Toy.cv_pdf) Toy.fresh)
        !! Toy.cv_json
      = Some (FJson (PDict (stamp_repaired (ustr "2025-01-01T09:00:00.000000")
                              (ustr "/tmp/resume_processor/cv.pdf")
                              (ustr "cv.pdf") kvs))).
Proof.
  destruct (repaired_record_is_stored_as_returned Toy.env Toy.cv_json (ustr "cv")
              Toy.cv_pdf Toy.parsed Toy.fresh
              (Toy.after (reprocess Toy.env Toy.cv_json (ustr "cv") Toy.cv_pdf)
                 Toy.fresh))
    as (prompt & response & cleaned & kvs & Hllm & Hclean & Hloads & Hfs & _).
  - vm_compute. reflexivity.
  - vm_compute. reflexivity.
  - vm_compute. reflexivity.
  - exists kvs. vm_compute in Hllm. injection Hllm as <-.
    vm_compute in Hclean. injection Hclean as <-.
    split; [exact Hloads | exact Hfs].
Defined.

Lemma one_repair_pass_per_entry_witness :
  ∃ w' evs,
    validate_and_reprocess_resumes Toy.env [Toy.cv_pdf]
      (Toy.standardized [Toy.cv_pdf]) = (Ok tt, w')
    ∧ trace w' = trace (Toy.standardized [Toy.cv_pdf]) ++ evs
    ∧ ∀ s, calls (is_ocr_for s) evs ≤ 1.
Proof.
  destruct (one_repair_pass_per_entry Toy.env [Toy.cv_pdf]
              (Toy.standardized [Toy.cv_pdf]))
    as (_ & _ & w' & evs & Hrun & Htr & _ & _ & _ & Hnd).
  exists w', evs. split; [exact Hrun|]. split; [exact Htr|].
  apply Hnd. vm_compute. apply NoDup_singleton.
Defined.


(** * Further properties *)

(** ** Writing JSON *)

Lemma has_object_dict kvs :
  has_object (PDict kvs) = existsb (λ kv, has_object kv.2) kvs.
Proof.
  simpl. induction kvs as [|[k v] kvs IH]; simpl; [done|]. by rewrite IH.
Qed.

Lemma encode_list ensure_ascii indent level l :
  Json.encode ensure_ascii indent level (PList l)
  = match l with
    | [] => Ok (ustr "[]")
    | _ =>
        match collect (map (Json.encode ensure_ascii indent (S level)) l) with
        | Raise e => Raise e
        | Ok chunks =>
            Ok (ustr "[" ++ Json.newline_indent indent (S level)
                ++ Json.join (Json.item_separator indent
                              ++ Json.newline_indent indent (S level)) chunks
                ++ Json.newline_indent indent level ++ ustr "]")
        end
    end.
Proof.
  destruct l as [|x l]; [done|].
  cbn [Json.encode].
  match goal with
  | |- context [?F l] =>
      is_fix F;
      assert (∀ l', F l' = collect (map (Json.encode ensure_ascii indent (S level)) l'))
        as Hitems
  end.
  { induction l' as [|y l' IH]; [done|]. cbn [map collect].
    destruct (Json.encode _ _ _ y); [|done]. by rewrite IH. }
  cbn [map collect]. destruct (Json.encode _ _ _ x); [|done].
  by rewrite Hitems.
Qed.

Lemma encode_dict ensure_ascii indent level kvs :
  Json.encode ensure_ascii indent level (PDict kvs)
  = match kvs with
    | [] => Ok (ustr "{}")
    | _ =>
        match collect
                (map (λ kv,
                        match Json.encode ensure_ascii indent (S level) kv.2 with
                        | Raise e => Raise e
                        | Ok c => Ok (Json.encode_basestring ensure_ascii kv.1
                                      ++ Json.key_separator ++ c)
                        end) kvs) with
        | Raise e => Raise e
        | Ok chunks =>
            Ok (ustr "{" ++ Json.newline_indent indent (S level)
                ++ Json.join (Json.item_separator indent
                              ++ Json.newline_indent indent (S level)) chunks
                ++ Json.newline_indent indent level ++ ustr "}")
        end
    end.
Proof.
  destruct kvs as [|[k x] kvs]; [done|].
  cbn [Json.encode].
  match goal with
  | |- context [?F kvs] =>
      is_fix F;
      assert (∀ l', F l'
                    = collect (map (λ kv,
                        match Json.encode ensure_ascii indent (S level) kv.2 with
                        | Raise e => Raise e
                        | Ok c => Ok (Json.encode_basestring ensure_ascii kv.1
                                      ++ Json.key_separator ++ c)
                        end) l'))
        as Hitems
  end.
  { induction l' as [|[k' y] l' IH]; [done|]. cbn [map collect snd fst].
    destruct (Json.encode _ _ _ y); [|done]. by rewrite IH. }
  cbn [map collect snd fst]. destruct (Json.encode _ _ _ x); [|done].
  by rewrite Hitems.
Qed.

Lemma collect_outcome {A} (f : A → result pystr) (bad : A → bool) (l : list A) :
  Forall (λ x, if bad x
               then ∃ ty s, f x = Raise (Json.not_serializable (PObj ty s))
               else ∃ text, f x = Ok text) l →
  if existsb bad l
  then ∃ ty s, collect (map f l) = Raise (Json.not_serializable (PObj ty s))
  else ∃ chunks, collect (map f l) = Ok chunks.
Proof.
  induction 1 as [|x l Hx _ IH]; simpl; [eauto|].
  destruct (bad x); simpl.
  - destruct Hx as (ty & s & ->). eauto.
  - destruct Hx as (text & ->). destruct (existsb bad l).
    + destruct IH as (ty & s & ->). eauto.
    + destruct IH as (chunks & ->). eauto.
Qed.

Lemma encode_outcome ensure_ascii indent v :
  ∀ level,
    if has_object v
    then ∃ ty s, Json.encode ensure_ascii indent level v
                 = Raise (Json.not_serializable (PObj ty s))
    else ∃ text, Json.encode ensure_ascii indent level v = Ok text.
Proof.
  induction v as [| | | | |l IH|kvs IH|ty s] using pyval_rect_nested;
    intros level; try (simpl; eauto; fail).
  - rewrite encode_list. cbn [has_object].
    assert (Forall (λ x, if has_object x
               then ∃ ty s, Json.encode ensure_ascii indent (S level) x
                            = Raise (Json.not_serializable (PObj ty s))
               else ∃ text, Json.encode ensure_ascii indent (S level) x = Ok text) l)
      as H by (eapply Forall_impl; [exact IH|]; intros x Hx; apply Hx).
    apply collect_outcome in H. destruct l as [|x l]; [simpl; eauto|].
    destruct (existsb has_object (x :: l)).
    + destruct H as (ty & s & ->). eauto.
    + destruct H as (chunks & ->). eauto.
  - rewrite encode_dict, has_object_dict.
    assert (Forall (λ kv, if has_object kv.2
               then ∃ ty s,
                 match Json.encode ensure_ascii indent (S level) kv.2 with
                 | Raise e => Raise e
                 | Ok c => Ok (Json.encode_basestring ensure_ascii kv.1
                               ++ Json.key_separator ++ c)
                 end = Raise (Json.not_serializable (PObj ty s))
               else ∃ text,
                 match Json.encode ensure_ascii indent (S level) kv.2 with
                 | Raise e => Raise e
                 | Ok c => Ok (Json.encode_basestring ensure_ascii kv.1
                               ++ Json.key_separator ++ c)
                 end = Ok text) kvs) as H.
    { eapply Forall_impl; [exact IH|]. intros [k x] Hx. simpl in *.
      specialize (Hx (S level)). destruct (has_object x).
      - destruct Hx as (ty & s & ->). eauto.
      - destruct Hx as (text & ->). eauto. }
    apply (collect_outcome _ (λ kv, has_object kv.2)) in H.
    destruct kvs as [|kv kvs]; [simpl; eauto|].
    destruct (existsb _ (kv :: kvs)).
    + destruct H as (ty & s & ->). eauto.
    + destruct H as (chunks & ->). eauto.
Qed.

Lemma has_other_object_dict kvs :
  has_other_object (PDict kvs) = existsb (λ kv, has_other_object kv.2) kvs.
Proof.
  simpl. induction kvs as [|[k v] kvs IH]; simpl; [done|]. by rewrite IH.
Qed.

Lemma has_object_convert v :
  has_object (convert_objectid_to_str v) = has_other_object v.
Proof.
  induction v as [| | | | |l IH|kvs IH|ty s] using pyval_rect_nested;
    try reflexivity.
  - cbn [convert_objectid_to_str has_object has_other_object].
    induction IH as [|x l Hx _ IHl]; simpl; [done|]. by rewrite Hx, IHl.
  - rewrite convert_dict, has_object_dict, has_other_object_dict.
    unfold convert_items.
    induction IH as [|[k x] l Hx _ IHl]; simpl in *; [done|]. by rewrite Hx, IHl.
  - simpl. by destruct (str_eqb ty ObjectId_name).
Qed.

(** X1.  [json.dumps] raises exactly on the documents that hold an object
    of a foreign class, with the [TypeError] that names such an object.  So
    the payload of the retailor branch, built after
    [convert_objectid_to_str], is produced exactly when the resume holds no
    foreign object other than [ObjectId]s, while the two payloads built
    without the conversion raise on every resume that holds an [ObjectId]. *)
Theorem payloads_and_objectids (new_res : pyval) :
  (if has_other_object new_res
   then ∃ ty s, download_payload_retailor new_res
                = Raise (Json.not_serializable (PObj ty s))
   else ∃ text, download_payload_retailor new_res = Ok text)
  ∧ (has_objectid new_res = true →
     ∃ ty s, download_payload new_res = Raise (Json.not_serializable (PObj ty s))
             ∧ download_payload_job_matcher new_res
               = Raise (Json.not_serializable (PObj ty s))).
Proof.
  split.
  - unfold download_payload_retailor, Json.dumps.
    pose proof (encode_outcome true (Some 2) (convert_objectid_to_str new_res) 0) as H.
    by rewrite has_object_convert in H.
  - intros Hoid. unfold download_payload, download_payload_job_matcher, Json.dumps.
    pose proof (encode_outcome true (Some 2) new_res 0) as H.
    assert (has_object new_res = true) as Hobj;
      [|rewrite Hobj in H; destruct H as (ty & s & ->); eauto].
    clear H. revert Hoid.
    induction new_res as [| | | | |l IH|kvs IH|ty s] using pyval_rect_nested;
      try done.
    + cbn [has_objectid has_object].
      induction IH as [|x l Hx _ IHl]; simpl; [done|].
      intros [?|?]%orb_true_iff; apply orb_true_iff; auto.
    + rewrite has_objectid_dict, has_object_dict.
      induction IH as [|[k x] l Hx _ IHl]; simpl in *; [done|].
      intros [?|?]%orb_true_iff; apply orb_true_iff; auto.
Qed.

(** ** The payloads are ASCII *)

Lemma is_ascii_app a b :
  Json.is_ascii (a ++ b) = Json.is_ascii a && Json.is_ascii b.
Proof. apply forallb_app. Qed.

Lemma ustr_String a s : ustr (String a s) = N_of_ascii a :: ustr s.
Proof. reflexivity. Qed.

Lemma pretty_N_char_ascii d : (N_of_ascii (pretty_N_char d) <? 128)%N = true.
Proof. unfold pretty_N_char. repeat case_match; reflexivity. Qed.

Lemma pretty_N_go_ascii x s :
  Json.is_ascii (ustr s) = true → Json.is_ascii (ustr (pretty_N_go x s)) = true.
Proof.
  revert s. induction (N.lt_wf_0 x) as [x _ IH]. intros s Hs.
  destruct (decide (x = 0%N)) as [->|Hx]; [by rewrite pretty_N_go_0|].
  rewrite pretty_N_go_step by lia. apply IH.
  - apply N.div_lt; lia.
  - rewrite ustr_String. unfold Json.is_ascii in *. simpl.
    by rewrite pretty_N_char_ascii, Hs.
Qed.

Lemma str_of_Z_ascii z : Json.is_ascii (str_of_Z z) = true.
Proof.
  unfold str_of_Z, pretty, pretty_Z.
  destruct z as [|p|p]; [reflexivity | | ].
  - apply pretty_N_go_ascii. reflexivity.
  - unfold String.app at 1. change ("-" +:+ ?s)%string with (String "-" s).
    rewrite ustr_String. unfold Json.is_ascii. simpl.
    apply pretty_N_go_ascii. reflexivity.
Qed.

Lemma hex_digit_ascii d : (d < 16)%N → (Json.hex_digit d <? 128)%N = true.
Proof. intros H. unfold Json.hex_digit. case_match; apply N.ltb_lt; lia. Qed.

Lemma u_escape_ascii n : Json.is_ascii (Json.u_escape n) = true.
Proof.
  unfold Json.u_escape, Json.is_ascii. simpl.
  rewrite !hex_digit_ascii by (apply N.mod_lt; lia). reflexivity.
Qed.

Lemma encode_char_ascii c : Json.is_ascii (Json.encode_char true c) = true.
Proof.
  unfold Json.encode_char, Json.escape_dct.
  repeat case_match; simplify_eq; try reflexivity;
    rewrite ?is_ascii_app, ?u_escape_ascii; try reflexivity.
  unfold Json.is_ascii. simpl. rewrite andb_true_r. apply N.ltb_lt.
  match goal with H : true && _ = false |- _ => simpl in H; apply N.ltb_ge in H end.
  lia.
Qed.

Lemma encode_basestring_ascii s :
  Json.is_ascii (Json.encode_basestring true s) = true.
Proof.
  unfold Json.encode_basestring. rewrite !is_ascii_app.
  assert (Json.is_ascii (concat (map (Json.encode_char true) s)) = true) as ->;
    [|reflexivity].
  induction s as [|c s IH]; [done|]. simpl.
  by rewrite is_ascii_app, encode_char_ascii, IH.
Qed.

Lemma newline_indent_ascii indent level :
  Json.is_ascii (Json.newline_indent indent level) = true.
Proof.
  destruct indent as [n|]; [|done]. unfold Json.newline_indent, Json.is_ascii.
  simpl. induction (n * level)%nat; [done|]. simpl. done.
Qed.

Lemma join_ascii sep chunks :
  Json.is_ascii sep = true → Forall (λ c, Json.is_ascii c = true) chunks →
  Json.is_ascii (Json.join sep chunks) = true.
Proof.
  intros Hsep. induction 1 as [|c chunks Hc Hcs IH]; [done|].
  simpl. destruct chunks as [|c' chunks]; [done|].
  by rewrite !is_ascii_app, Hc, Hsep, IH.
Qed.

Lemma collect_Forall {A B} (f : A → result B) (P : B → Prop) l chunks :
  collect (map f l) = Ok chunks →
  Forall (λ x, ∀ c, f x = Ok c → P c) l →
  Forall P chunks.
Proof.
  intros Hc H. revert chunks Hc.
  induction H as [|x l Hx _ IH]; intros chunks; simpl.
  - by intros [= <-].
  - destruct (f x) as [c|] eqn:Hf; [|done].
    destruct (collect (map f l)) as [cs|]; [|done].
    intros [= <-]. constructor; eauto.
Qed.

Lemma Ok_inj {A} (a b : A) : Ok a = Ok b → a = b.
Proof. congruence. Qed.

Lemma encode_ascii indent v :
  ascii_floats v = true →
  ∀ level text, Json.encode true indent level v = Ok text →
                Json.is_ascii text = true.
Proof.
  assert (Json.is_ascii (Json.item_separator indent) = true) as Hsep
    by (by destruct indent).
  induction v as [| | | | |l IH|kvs IH|ty s] using pyval_rect_nested;
    intros Hfl level text.
  - by intros [= <-].
  - destruct b; by intros [= <-].
  - intros [= <-]. apply str_of_Z_ascii.
  - intros [= <-]. simpl in Hfl. unfold Json.floatstr. by repeat case_match.
  - intros [= <-]. apply encode_basestring_ascii.
  - rewrite encode_list. destruct l as [|x l]; [by intros [= <-]|].
    destruct (collect _) as [chunks|] eqn:Hc; [|done]. intros <-%Ok_inj.
    rewrite !is_ascii_app, !newline_indent_ascii, join_ascii; [done| |].
    { by rewrite is_ascii_app, Hsep, newline_indent_ascii. }
    eapply collect_Forall; [exact Hc|].
    cbn [ascii_floats] in Hfl. rewrite forallb_forall in Hfl.
    rewrite Forall_forall in IH |- *. intros y Hy c Hyc.
    eapply IH; [done| |exact Hyc]. apply Hfl. by apply list_elem_of_In.
  - rewrite encode_dict. destruct kvs as [|kv kvs]; [by intros [= <-]|].
    destruct (collect _) as [chunks|] eqn:Hc; [|done]. intros <-%Ok_inj.
    rewrite !is_ascii_app, !newline_indent_ascii, join_ascii; [done| |].
    { by rewrite is_ascii_app, Hsep, newline_indent_ascii. }
    eapply collect_Forall; [exact Hc|].
    assert (Forall (λ kv, ascii_floats kv.2 = true) (kv :: kvs)) as Hall.
    { clear -Hfl. revert Hfl. generalize (kv :: kvs). intros l. simpl.
      induction l as [|[k x] l IHl]; [done|].
      intros [? ?]%andb_true_iff. constructor; auto. }
    rewrite Forall_forall in IH, Hall |- *. intros [k y] Hy c. cbn [fst snd].
    destruct (Json.encode _ _ _ y) as [cy|] eqn:Hyc; [|done]. intros <-%Ok_inj.
    rewrite !is_ascii_app, encode_basestring_ascii.
    rewrite (IH _ Hy (Hall _ Hy) _ _ Hyc). done.
  - done.
Qed.

(** X2.  On a resume whose floats print in ASCII, as every float does, each
    of the three download payloads holds ASCII characters only: whatever
    character a name or a skill is written with, the payload spells it with
    an escape. *)
Theorem download_payloads_are_ascii (resume : pyval) (text : pystr) :
  ascii_floats resume = true →
  download_payload resume = Ok text
  ∨ download_payload_job_matcher resume = Ok text
  ∨ download_payload_retailor resume = Ok text →
  Json.is_ascii text = true.
Proof.
  intros Hfl [H|[H|H]].
  - by eapply encode_ascii.
  - by eapply encode_ascii.
  - eapply encode_ascii; [|exact H].
    clear H. revert Hfl.
    induction resume as [| | | | |l IH|kvs IH|ty s] using pyval_rect_nested;
      try done.
    + cbn [convert_objectid_to_str ascii_floats].
      induction IH as [|x l Hx _ IHl]; simpl; [done|].
      intros [? ?]%andb_true_iff. rewrite Hx, IHl; done.
    + rewrite convert_dict. unfold convert_items. simpl.
      induction IH as [|[k x] l Hx _ IHl]; simpl in *; [done|].
      intros [? ?]%andb_true_iff. rewrite Hx, IHl; done.
    + simpl. by destruct (str_eqb ty ObjectId_name).
Qed.

(** ** The name check on strings *)

Lemma split_ws_go_word cur s :
  cur ≠ [] →
  ∃ rest, split_ws_go cur s = (reverse cur ++ span_word s) :: rest.
Proof.
  revert cur. induction s as [|c s IH]; intros cur Hcur; simpl.
  - destruct cur; [done|]. rewrite app_nil_r. eauto.
  - destruct (is_space c).
    + destruct cur; [done|]. rewrite app_nil_r. eauto.
    + destruct (IH (c :: cur)) as (rest & ->); [done|].
      exists rest. by rewrite reverse_cons, <- app_assoc.
Qed.

Lemma str_split_first_word s :
  str_split s = [] ∧ lstrip s = []
  ∨ ∃ rest, str_split s = first_word s :: rest ∧ lstrip s ≠ [].
Proof.
  unfold str_split, first_word. induction s as [|c s IH]; simpl; [by left|].
  destruct (is_space c) eqn:Hc; [done|]. right.
  destruct (split_ws_go_word [c] s) as (rest & ->); [done|].
  simpl. rewrite Hc. eauto.
Qed.

Arguments lstrip : simpl never.
Arguments first_word : simpl never.
Arguments str_split : simpl never.

(** X3.  On a record whose name is a string, the check of the validation
    looks at the first word only, whatever whitespace comes before it: an
    empty name is selected, a name of whitespace raises [IndexError], and any
    other name is selected exactly when its first word has fewer than two
    characters.  A record with no name, or with a null name, is selected. *)
Theorem name_check_on_strings (kvs : list (pystr * pyval)) :
  (∀ s, dict_lookup k_name kvs = Some (PStr s) →
        needs_reprocessing (PDict kvs)
        = match s, lstrip s with
          | [], _ => Ok true
          | _, [] => Raise (IndexError (ustr "list index out of range"))
          | _, _ => Ok (length (first_word s) <? 2)
          end)
  ∧ (dict_lookup k_name kvs = None ∨ dict_lookup k_name kvs = Some PNone →
     needs_reprocessing (PDict kvs) = Ok true).
Proof.
  split.
  - intros s Hs. unfold needs_reprocessing, py_get. munfold. rewrite Hs. simpl.
    destruct s as [|c s]; [done|]. simpl negb. cbv iota.
    unfold first_token_len.
    destruct (str_split_first_word (c :: s)) as [[-> ->]|(rest & -> & Hne)];
      [done|].
    destruct (lstrip (c :: s)); done.
  - intros [H|H]; unfold needs_reprocessing, py_get; munfold; by rewrite H.
Qed.

(** ** File names *)






(** ** The parsing stage *)

Section MoreStages.

Variable E : Env.

Lemma is_Some_insert (m : gmap path fcontent) p q x :
  is_Some (m !! p) → is_Some (<[q:=x]> m !! p).
Proof. rewrite lookup_insert_is_Some. destruct (decide (q = p)); auto. Qed.

Lemma for_enumerate_step {A} (body : nat → A → M unit) i x xs w w' :
  body i x w = (Ok tt, w') →
  for_enumerate body i (x :: xs) w = for_enumerate body (S i) xs w'.
Proof. intros H. simpl. munfold. by rewrite H. Qed.






(** ** The standardization stage *)

Lemma calls_concat P tr1 tr2 :
  calls P (tr1 ++ tr2) = calls P tr1 + calls P tr2.
Proof. unfold calls. by rewrite List.filter_app, length_app. Qed.

(** What one iteration of the standardization loop does to the session. *)
Lemma standardize_one_effect total i p w :
  ∃ w' evs,
    standardize_one E total i p w = (Ok tt, w')
    ∧ trace w' = trace w ++ evs
    ∧ calls is_llm evs ≤ 1
    ∧ (is_Some (fs w !! standardized_path p) → evs = [])
    ∧ (standardized_files w' = standardized_files w ++ [standardized_path p]
       ∧ count w' = S (count w)
       ∧ is_Some (fs w' !! standardized_path p)
       ∨ standardized_files w' = standardized_files w ∧ count w' = count w)
    ∧ (∀ q, is_Some (fs w !! q) → is_Some (fs w' !! q))
    ∧ processed_files w' = processed_files w
    ∧ uploaded_files w' = uploaded_files w
    ∧ processing_complete w' = processing_complete w
    ∧ standardizing_complete w' = standardizing_complete w
    ∧ db_upload_complete w' = db_upload_complete w.
Proof.
  unfold standardize_one, path_exists, standardize_try, json_load_file,
    do_call_azure_llm, now, write_text, json_dump_file, standardized_path.
  mstep.
  repeat (case_match; simplify_eq/=).
  all: eexists _, _; split; [reflexivity|]; simpl.
  all: split; [rewrite <- ?app_assoc; try reflexivity; by rewrite app_nil_r|].
  all: split; [unfold calls; simpl; lia|].
  all: split;
    [ intros Hs;
      match goal with
      | H : bool_decide (is_Some _) = false |- _ =>
          by apply bool_decide_eq_false in H
      | _ => reflexivity
      end |].
  all: split;
    [ first [ right; split; reflexivity
            | left; split; [reflexivity|]; split; [reflexivity|];
              first [ by rewrite lookup_insert_eq
                    | match goal with
                      | H : bool_decide (is_Some _) = true |- _ =>
                          by apply bool_decide_eq_true in H
                      end ] ] |].
  all: split; [intros q Hq; repeat apply is_Some_insert; exact Hq|].
  all: repeat split.
Qed.

Lemma lacking_mono (m m' : gmap path fcontent) xs :
  (∀ q, is_Some (m !! q) → is_Some (m' !! q)) → lacking m' xs ≤ lacking m xs.
Proof.
  intros Hmono. unfold lacking. induction xs as [|p xs IH]; [done|].
  rewrite !filter_cons. repeat case_decide; simpl; try lia.
  exfalso. destruct (m !! standardized_path p) eqn:Hm; [|done].
  destruct (Hmono (standardized_path p)) as [? ?]; [by rewrite Hm|]. congruence.
Qed.

Lemma standardize_loop_effect total xs :
  ∀ i w, ∃ w' l evs,
    for_enumerate (standardize_one E total) i xs w = (Ok tt, w')
    ∧ trace w' = trace w ++ evs
    ∧ calls is_llm evs ≤ lacking (fs w) xs
    ∧ standardized_files w' = standardized_files w ++ l
    ∧ l `sublist_of` standardized_path <$> xs
    ∧ count w' = count w + length l
    ∧ (∀ q, q ∈ l → is_Some (fs w' !! q))
    ∧ (∀ q, is_Some (fs w !! q) → is_Some (fs w' !! q))
    ∧ processed_files w' = processed_files w
    ∧ uploaded_files w' = uploaded_files w
    ∧ processing_complete w' = processing_complete w
    ∧ standardizing_complete w' = standardizing_complete w
    ∧ db_upload_complete w' = db_upload_complete w.
Proof.
  induction xs as [|p xs IH]; intros i w.
  { exists w, [], []. simpl. rewrite !app_nil_r, Nat.add_0_r.
    repeat split; try done; try lia. intros q Hq. by apply elem_of_nil in Hq. }
  destruct (standardize_one_effect total i p w)
    as (w1 & evs1 & Hrun & Htr & Hllm & Hreuse & Hfiles & Hmono & Hpf & Hup
        & Hf1 & Hf2 & Hf3).
  destruct (IH (S i) w1)
    as (w2 & l2 & evs2 & Hrun2 & Htr2 & Hllm2 & Hfiles2 & Hsub2 & Hcount2
        & Hex2 & Hmono2 & Hpf2 & Hup2 & Hg1 & Hg2 & Hg3).
  rewrite (for_enumerate_step _ _ _ _ _ _ Hrun), Hrun2.
  pose proof (lacking_mono _ _ xs Hmono) as Hlack.
  assert (calls is_llm (evs1 ++ evs2) ≤ lacking (fs w) (p :: xs)) as Hbound.
  { rewrite calls_concat. unfold lacking in *. rewrite filter_cons.
    case_decide as Hd; simpl; [lia|].
    rewrite Hreuse; [unfold calls at 1; simpl; lia|].
    by apply not_eq_None_Some. }
  exists w2.
  destruct Hfiles as [(Hsf & Hc & Hex)|(Hsf & Hc)].
  - exists (standardized_path p :: l2), (evs1 ++ evs2).
    split; [done|]. split; [by rewrite Htr2, Htr, app_assoc|].
    split; [done|].
    split; [by rewrite Hfiles2, Hsf, <- app_assoc|].
    split; [by apply sublist_skip|].
    split; [rewrite Hcount2, Hc; simpl; lia|].
    split; [intros q [->|Hq]%elem_of_cons; auto|].
    split; [auto|]. repeat split; congruence.
  - exists l2, (evs1 ++ evs2).
    split; [done|]. split; [by rewrite Htr2, Htr, app_assoc|].
    split; [done|].
    split; [by rewrite Hfiles2, Hsf|].
    split; [by apply sublist_cons|].
    split; [rewrite Hcount2, Hc; lia|].
    split; [done|]. split; [auto|]. repeat split; congruence.
Qed.

(** X7.  Once the standardizer is initialised, the standardization stage
    runs to its end.  It leaves in [standardized_files] standardized files
    of the parsed files, in their order, each present in the standardized
    directory; the last line it shows counts exactly these files; and it
    calls the backend at most once for each parsed file whose output was
    missing when the stage began, never for a file whose output was there. *)
Theorem standardize_stage_session (w : world) :
  standardizer_init E (length (trace w)) = None →
  ∃ w' evs,
    standardize_resumes E w = (Ok tt, w')
    ∧ trace w' = trace w ++ CStandardizerInit :: evs
    ∧ calls is_llm evs ≤ lacking (fs w) (processed_files w)
    ∧ standardized_files w' `sublist_of` standardized_path <$> processed_files w
    ∧ (∀ q, q ∈ standardized_files w' →
            q.1 = StandardizedDir ∧ is_Some (fs w' !! q))
    ∧ last (ui w')
      = Some (UiStatus (msg_standardized (length (standardized_files w'))
                          (length (processed_files w))))
    ∧ standardizing_complete w' = true
    ∧ (∀ q, is_Some (fs w !! q) → is_Some (fs w' !! q))
    ∧ processed_files w' = processed_files w.
Proof.
  intros Hinit.
  unfold standardize_resumes, ResumeStandardizer, standardize_loop. mstep.
  rewrite Hinit. mstep.
  match goal with
  | |- context [for_enumerate _ 0 ?xs ?w0] =>
      destruct (standardize_loop_effect (length xs) xs 0 w0)
        as (w1 & l & evs & Hrun & Htr & Hllm & Hfiles & Hsub & Hcount
            & Hex & Hmono & Hpf & Hup & Hf1 & Hf2 & Hf3)
  end.
  rewrite Hrun. simpl in *. eexists _, evs. split; [reflexivity|]. simpl.
  rewrite Hfiles, Hcount, Hpf. simpl.
  split; [by rewrite Htr, <- app_assoc|].
  split; [done|]. split; [done|].
  split.
  { intros q Hq. split; [|auto].
    eapply elem_of_sublist in Hq; [|exact Hsub].
    apply list_elem_of_fmap in Hq as (p & -> & _). done. }
  split; [by rewrite last_snoc|].
  repeat split; auto.
Qed.

Lemma standardize_loop_reuse total xs :
  ∀ i w,
    (∀ p, p ∈ xs → is_Some (fs w !! standardized_path p)) →
    ∃ w',
      for_enumerate (standardize_one E total) i xs w = (Ok tt, w')
      ∧ trace w' = trace w
      ∧ fs w' = fs w
      ∧ standardized_files w' = standardized_files w ++ (standardized_path <$> xs)
      ∧ count w' = count w + length xs
      ∧ standardizing_complete w' = standardizing_complete w.
Proof.
  induction xs as [|p xs IH]; intros i w Hall.
  { exists w. simpl. rewrite app_nil_r, Nat.add_0_r. done. }
  assert (∃ w1, standardize_one E total i p w = (Ok tt, w1)
                ∧ trace w1 = trace w ∧ fs w1 = fs w
                ∧ standardized_files w1
                  = standardized_files w ++ [standardized_path p]
                ∧ count w1 = S (count w)
                ∧ standardizing_complete w1 = standardizing_complete w)
    as (w1 & Hrun & Htr & Hfs & Hsf & Hc & Hfl).
  { unfold standardize_one, path_exists. mstep.
    rewrite bool_decide_eq_true_2 by (apply Hall; rewrite elem_of_cons; auto).
    mstep. eexists. split; [reflexivity|]. done. }
  destruct (IH (S i) w1) as (w2 & Hrun2 & Htr2 & Hfs2 & Hsf2 & Hc2 & Hfl2).
  { intros q Hq. rewrite Hfs. apply Hall. rewrite elem_of_cons; auto. }
  exists w2. rewrite (for_enumerate_step _ _ _ _ _ _ Hrun).
  split; [done|]. split; [congruence|]. split; [congruence|].
  split; [by rewrite Hsf2, Hsf, <- app_assoc|].
  split; [rewrite Hc2, Hc; simpl; lia | congruence].
Qed.

(** X8.  Run on a batch whose standardized files are all there, the stage
    makes one call, the initialisation of the standardizer, and writes
    nothing: it lists the existing file of every parsed file, in order, and
    counts them all.  Running the stage again over standardized files is
    free of backend calls. *)
Theorem standardize_stage_on_existing (w : world) :
  standardizer_init E (length (trace w)) = None →
  (∀ p, p ∈ processed_files w → is_Some (fs w !! standardized_path p)) →
  ∃ w',
    standardize_resumes E w = (Ok tt, w')
    ∧ trace w' = trace w ++ [CStandardizerInit]
    ∧ fs w' = fs w
    ∧ standardized_files w' = standardized_path <$> processed_files w
    ∧ last (ui w')
      = Some (UiStatus (msg_standardized (length (processed_files w))
                          (length (processed_files w))))
    ∧ standardizing_complete w' = true.
Proof.
  intros Hinit Hall.
  unfold standardize_resumes, ResumeStandardizer, standardize_loop. mstep.
  rewrite Hinit. mstep.
  match goal with
  | |- context [for_enumerate _ 0 ?xs ?w0] =>
      destruct (standardize_loop_reuse (length xs) xs 0 w0)
        as (w1 & Hrun & Htr & Hfs & Hsf & Hc & Hfl); [exact Hall|]
  end.
  rewrite Hrun. simpl in *. eexists. split; [reflexivity|]. simpl.
  rewrite Hc. simpl. repeat split; try done. by rewrite last_snoc.
Qed.

Lemma lstrip_blank s : forallb is_space s = true → lstrip s = [].
Proof.
  induction s as [|c s IH]; [done|]. simpl.
  intros [Hc Hs]%andb_true_iff. unfold lstrip. rewrite Hc. by apply IH.
Qed.

Lemma str_strip_blank s : forallb is_space s = true → str_strip s = [].
Proof. intros H. unfold str_strip. by rewrite (lstrip_blank s H). Qed.

(** X9.  A parsed file with no content, or with a content of whitespace
    only, is skipped: when its output is missing, the iteration shows the
    warning that names it and does nothing else.  It calls no backend,
    writes no file, counts nothing, and leaves the progress bar where it
    was. *)
Theorem standardize_skips_empty_content (total i : nat) (file_path : path)
    (w : world) (kvs : list (pystr * pyval)) :
  fs w !! standardized_path file_path = None →
  read_json E (fs w) file_path = Ok (PDict kvs) →
  (dict_lookup k_content kvs = None
   ∨ ∃ s, dict_lookup k_content kvs = Some (PStr s) ∧ forallb is_space s = true) →
  ∃ w',
    standardize_one E total i file_path w = (Ok tt, w')
    ∧ ui w' = ui w ++ [UiStatus (msg_standardizing i total (path_name file_path));
                       UiWarning (msg_empty_content (path_name file_path))]
    ∧ trace w' = trace w
    ∧ fs w' = fs w
    ∧ standardized_files w' = standardized_files w
    ∧ count w' = count w.
Proof.
  intros Hnone Hread Hcontent.
  assert (py_strip (default (PStr []) (dict_lookup k_content kvs)) = Ok []) as Hs.
  { destruct Hcontent as [->|(s & -> & Hb)]; simpl; [done|].
    by rewrite str_strip_blank. }
  unfold standardize_one, path_exists, standardize_try, json_load_file.
  unfold standardized_path in Hnone. mstep.
  rewrite Hnone, bool_decide_eq_false_2 by (by intros [? ?]).
  mstep. rewrite Hread. mstep. rewrite Hs. mstep.
  eexists. split; [reflexivity|]. simpl. by rewrite <- app_assoc.
Qed.

(** X10.  When the standardizer cannot be initialised, nothing is
    standardized.  On a [ValueError] the stage shows the error and returns:
    [standardized_files] is empty, the completion flag stays off, and the
    only call made is the initialisation.  Any other exception leaves the
    stage, in the same state and with no error shown. *)
Theorem standardize_stage_without_standardizer (w : world) (e : exn) :
  standardizer_init E (length (trace w)) = Some e →
  ∃ w',
    standardize_resumes E w
    = (if exn_value_error e then Ok tt else Raise e, w')
    ∧ trace w' = trace w ++ [CStandardizerInit]
    ∧ fs w' = fs w
    ∧ standardized_files w' = []
    ∧ standardizing_complete w' = false
    ∧ ui w' = ui w ++ [UiWrite (msg_standardizing_n (length (processed_files w)));
                       UiProgressStart]
              ++ (if exn_value_error e
                  then [UiError (msg_standardizer_init e)] else []).
Proof.
  intros Hinit.
  unfold standardize_resumes, ResumeStandardizer. mstep. rewrite Hinit. simpl.
  destruct (exn_value_error e); simpl.
  - eexists. split; [reflexivity|]. simpl. by rewrite <- !app_assoc.
  - eexists. split; [reflexivity|]. simpl. by rewrite <- !app_assoc.
Qed.

(** ** The upload stage *)

Lemma upserted_app tr1 tr2 : upserted (tr1 ++ tr2) = upserted tr1 ++ upserted tr2.
Proof. apply omap_app. Qed.

(** What one iteration of the upload loop does to the session. *)
Lemma upload_one_effect total i p w :
  ∃ w' evs,
    upload_one E total i p w = (Ok tt, w')
    ∧ trace w' = trace w ++ evs
    ∧ (evs = [] ∨ ∃ r, read_json E (fs w) p = Ok r ∧ evs = [CDbUpsert r])
    ∧ (uploaded_files w' = uploaded_files w ++ [path_name p]
       ∧ count w' = S (count w)
       ∧ length (upserted evs) = 1
       ∨ uploaded_files w' = uploaded_files w ∧ count w' = count w)
    ∧ fs w' = fs w
    ∧ processed_files w' = processed_files w
    ∧ standardized_files w' = standardized_files w
    ∧ db_upload_complete w' = db_upload_complete w.
Proof.
  unfold upload_one, upload_try, json_load_file, do_insert_or_update_resume.
  mstep.
  repeat (case_match; simplify_eq/=).
  all: eexists _, _; split; [reflexivity|]; simpl.
  all: split; [rewrite <- ?app_assoc; try reflexivity; by rewrite app_nil_r|].
  all: split; [first [by left | right; eexists; split; reflexivity]|].
  all: split; [first [right; split; reflexivity | left; repeat split]|].
  all: repeat split.
Qed.

Lemma upload_loop_effect total xs :
  ∀ i w, ∃ w' names evs,
    for_enumerate (upload_one E total) i xs w = (Ok tt, w')
    ∧ trace w' = trace w ++ evs
    ∧ Forall (λ r, ∃ p, p ∈ xs ∧ read_json E (fs w) p = Ok r) (upserted evs)
    ∧ Forall (λ c, is_upsert c = true) evs
    ∧ length names ≤ length evs ≤ length xs
    ∧ uploaded_files w' = uploaded_files w ++ names
    ∧ names `sublist_of` path_name <$> xs
    ∧ count w' = count w + length names
    ∧ fs w' = fs w
    ∧ processed_files w' = processed_files w
    ∧ standardized_files w' = standardized_files w
    ∧ db_upload_complete w' = db_upload_complete w.
Proof.
  induction xs as [|p xs IH]; intros i w.
  { exists w, [], []. simpl. rewrite !app_nil_r, Nat.add_0_r.
    repeat split; try done; lia. }
  destruct (upload_one_effect total i p w)
    as (w1 & evs1 & Hrun & Htr & Hcall & Hfiles & Hfs & Hpf & Hsf & Hfl).
  destruct (IH (S i) w1)
    as (w2 & names2 & evs2 & Hrun2 & Htr2 & Hrec2 & Hups2 & Hlen2 & Hup2 & Hsub2
        & Hcount2 & Hfs2 & Hpf2 & Hsf2 & Hfl2).
  rewrite (for_enumerate_step _ _ _ _ _ _ Hrun), Hrun2.
  assert (Forall (λ r, ∃ q, q ∈ p :: xs ∧ read_json E (fs w) q = Ok r)
            (upserted (evs1 ++ evs2))) as Hrec.
  { rewrite upserted_app. apply Forall_app. split.
    - destruct Hcall as [->|(r & Hr & ->)]; [constructor|].
      repeat constructor. exists p. split; [rewrite elem_of_cons; auto | done].
    - eapply Forall_impl; [exact Hrec2|]. intros r (q & Hq & Hr).
      exists q. split; [rewrite elem_of_cons; auto | by rewrite <- Hfs]. }
  assert (Forall (λ c, is_upsert c = true) (evs1 ++ evs2)) as Hups.
  { apply Forall_app. split; [|done].
    destruct Hcall as [->|(r & _ & ->)]; repeat constructor. }
  assert (length evs1 ≤ 1) as Hl1
    by (destruct Hcall as [->|(r & _ & ->)]; simpl; lia).
  exists w2.
  destruct Hfiles as [(Huf & Hc & Hone)|(Huf & Hc)].
  - assert (length evs1 = 1) as Hl1'.
    { destruct Hcall as [->|(r & _ & ->)]; [done | done]. }
    exists (path_name p :: names2), (evs1 ++ evs2).
    split; [done|]. split; [by rewrite Htr2, Htr, app_assoc|].
    split; [done|]. split; [done|].
    split; [rewrite length_app; simpl; lia|].
    split; [by rewrite Hup2, Huf, <- app_assoc|].
    split; [by apply sublist_skip|].
    split; [rewrite Hcount2, Hc; simpl; lia|].
    repeat split; congruence.
  - exists names2, (evs1 ++ evs2).
    split; [done|]. split; [by rewrite Htr2, Htr, app_assoc|].
    split; [done|]. split; [done|].
    split; [rewrite length_app; simpl; lia|].
    split; [by rewrite Hup2, Huf|].
    split; [by apply sublist_cons|].
    split; [rewrite Hcount2, Hc; lia|].
    repeat split; congruence.
Qed.


(** X12.  When the store cannot be reached, whatever the exception, the
    upload stage shows the error and returns: no record is handed to the
    store, [uploaded_files] keeps what it held, and the completion flag is
    off. *)
Theorem upload_stage_without_store (w : world) (e : exn) :
  db_init E (length (trace w)) = Some e →
  ∃ w',
    upload_to_mongodb E w = (Ok tt, w')
    ∧ trace w' = trace w ++ [CDbInit]
    ∧ ui w' = ui w ++ [UiProgressStart; UiError (msg_db_connect e)]
    ∧ uploaded_files w' = uploaded_files w
    ∧ db_upload_complete w' = false
    ∧ fs w' = fs w.
Proof.
  intros Hinit. unfold upload_to_mongodb, ResumeDBManager. mstep.
  rewrite Hinit. simpl.
  eexists. split; [reflexivity|]. simpl. by rewrite <- !app_assoc.
Qed.

(** ** The validation *)

Lemma for_each_fixed {A} (body : A → M unit) xs w :
  (∀ x, x ∈ xs → body x w = (Ok tt, w)) → for_each body xs w = (Ok tt, w).
Proof.
  induction xs as [|x xs IH]; intros H; [done|].
  simpl. munfold. rewrite H by (rewrite elem_of_cons; auto).
  apply IH. intros y Hy. apply H. rewrite elem_of_cons. auto.
Qed.

(** X13.  When every listed record reads as a document whose name passes
    the check, one run of the validation changes nothing but the page: it
    shows its two lines, the second with a count of zero, and makes no
    call, writes no file and touches no list of the session. *)
Theorem validation_leaves_valid_records (uploaded : list upload) (w : world) :
  (∀ p, p ∈ standardized_files w →
        ∃ r, read_json E (fs w) p = Ok r ∧ needs_reprocessing r = Ok false) →
  ∃ w',
    validate_and_reprocess_resumes E uploaded w = (Ok tt, w')
    ∧ ui w' = ui w ++ [UiWrite msg_validating; UiWrite (msg_reprocessed_n 0)]
    ∧ trace w' = trace w
    ∧ fs w' = fs w
    ∧ standardized_files w' = standardized_files w
    ∧ processed_files w' = processed_files w
    ∧ uploaded_files w' = uploaded_files w.
Proof.
  intros Hvalid. unfold validate_and_reprocess_resumes. mstep.
  rewrite for_each_fixed.
  - simpl. eexists. split; [reflexivity|]. simpl. by rewrite <- app_assoc.
  - intros p Hp. destruct (Hvalid p Hp) as (r & Hread & Hcheck).
    unfold validate_one, validate_try, json_load_file. mstep.
    by rewrite Hread, Hcheck.
Qed.

(** X14.  A record the check selects is counted as reprocessed whatever
    becomes of its repair: the iteration ends normally, its first line is
    the warning that names the record, and the counter is one more, also
    when no original is found, when the re-extraction gives nothing, or
    when the parser, the standardizer or the backend raises. *)
Theorem selected_record_is_counted (uploaded : list upload) (file_path : path)
    (w : world) (resume_data : pyval) :
  read_json E (fs w) file_path = Ok resume_data →
  needs_reprocessing resume_data = Ok true →
  ∃ w' rest,
    validate_one E uploaded file_path w = (Ok tt, w')
    ∧ count w' = S (count w)
    ∧ ui w' = ui w ++ UiWarning (msg_missing_name (path_name file_path)) :: rest
    ∧ rest ≠ [].
Proof.
  intros Hread Hsel.
  unfold validate_one, validate_try, json_load_file, reprocess, write_bytes,
    do_ocr_parse_resume, do_save_to_json, ResumeStandardizer,
    do_call_azure_llm, now, json_dump_file.
  mstep. rewrite Hread. mstep. rewrite Hsel. mstep.
  repeat (case_match; simplify_eq/=).
  all: eexists _, _; split; [reflexivity|]; simpl.
  all: split; [reflexivity|].
  all: split; [rewrite <- ?app_assoc; reflexivity|].
  all: discriminate.
Qed.

(** X15.  When the re-extraction of the original raises or gives nothing,
    the record stays as it was: the iteration copies the upload to the
    temporary directory, makes the one OCR call, shows the error, and
    writes no other file and calls no backend. *)
Theorem failed_reextraction_keeps_record (uploaded : list upload)
    (file_path : path) (w : world) (resume_data : pyval) (f : upload)
    (outcome : result pyval) :
  read_json E (fs w) file_path = Ok resume_data →
  needs_reprocessing resume_data = Ok true →
  find_original uploaded (path_stem file_path) = Some f →
  ocr_parse_resume E (length (trace w)) f = outcome →
  match outcome with Ok v => truthy v = false | Raise _ => True end →
  ∃ w',
    validate_one E uploaded file_path w = (Ok tt, w')
    ∧ trace w' = trace w ++ [COcrParse (up_name f)]
    ∧ fs w' = <[(TempDir, up_name f) := FBytes (up_buffer f)]> (fs w)
    ∧ ui w' = ui w ++ [UiWarning (msg_missing_name (path_name file_path));
                       UiError (match outcome with
                                | Ok _ => msg_failed_reparse (up_name f)
                                | Raise e =>
                                    msg_error_validating (path_name file_path) e
                                end)]
    ∧ standardized_files w' = standardized_files w.
Proof.
  intros Hread Hsel Hfind Hocr Hout.
  unfold validate_one, validate_try, json_load_file, reprocess, write_bytes,
    do_ocr_parse_resume.
  mstep. rewrite Hread. mstep. rewrite Hsel. mstep. rewrite Hfind. mstep.
  rewrite Hocr. destruct outcome as [v|e]; mstep.
  - rewrite Hout. mstep. eexists. split; [reflexivity|]. simpl.
    by rewrite <- app_assoc.
  - eexists. split; [reflexivity|]. simpl. by rewrite <- app_assoc.
Qed.

(** ** The "Process Resumes" button *)

Arguments msg_parsing_complete : simpl never.
Arguments msg_standardization_complete : simpl never.
Arguments msg_upload_complete : simpl never.
Arguments process_uploaded_files : simpl never.
Arguments standardize_resumes : simpl never.
Arguments validate_and_reprocess_resumes : simpl never.
Arguments upload_to_mongodb : simpl never.


Lemma upload_returns w :
  ∃ w', upload_to_mongodb E w = (Ok tt, w')
        ∧ (standardized_files w = [] →
           trace w' = trace w ++ [CDbInit]
           ∧ standardized_files w' = []
           ∧ uploaded_files w' = uploaded_files w ∧ fs w' = fs w).
Proof.
  destruct (db_init E (length (trace w))) as [e|] eqn:Hinit.
  - unfold upload_to_mongodb, ResumeDBManager. mstep. rewrite Hinit. simpl.
    eexists. split; [reflexivity|]. intros Hsf. simpl. by rewrite Hsf.
  - unfold upload_to_mongodb, ResumeDBManager, upload_loop. mstep.
    rewrite Hinit. mstep.
    destruct (standardized_files w) as [|p ps] eqn:Hsf.
    + simpl. eexists. split; [reflexivity|]. intros _. simpl. by rewrite Hsf.
    + match goal with
      | |- context [for_enumerate _ 0 ?xs ?w0] =>
          destruct (upload_loop_effect (length xs) xs 0 w0) as (w1 & ? & ? & Hrun & _)
      end.
      rewrite Hrun. simpl. eexists. split; [reflexivity|]. done.
Qed.



(** X17.  When the standardizer cannot be initialised after the parsing
    stage, a click uploads nothing.  On a [ValueError] the click still ends
    with its three success lines, having called neither the backend nor the
    store for a record: its calls after the parsing are the two
    initialisations.  On any other exception the click raises it right
    there: the validation and the upload do not run. *)
Theorem button_without_standardizer (uploaded : list upload) (w w1 : world)
    (e : exn) :
  process_uploaded_files E uploaded w = (Ok tt, w1) →
  standardizer_init E (length (trace w1)) = Some e →
  ∃ w',
    process_resumes_clicked E uploaded w
    = (if exn_value_error e then Ok tt else Raise e, w')
    ∧ trace w' = trace w1 ++ (if exn_value_error e
                              then [CStandardizerInit; CDbInit]
                              else [CStandardizerInit])
    ∧ standardized_files w' = []
    ∧ uploaded_files w' = uploaded_files w1
    ∧ fs w' = fs w1
    ∧ (if exn_value_error e
       then last (ui w') = Some (UiSuccess msg_upload_complete)
       else ui w' = ui w1 ++ [UiSuccess msg_parsing_complete;
                              UiWrite (msg_standardizing_n
                                         (length (processed_files w1)));
                              UiProgressStart]).
Proof.
  intros Hrun1 Hinit. unfold process_resumes_clicked. mstep. rewrite Hrun1.
  unfold standardize_resumes, ResumeStandardizer. mstep. rewrite Hinit. simpl.
  destruct (exn_value_error e); mstep.
  - match goal with
    | |- context [upload_to_mongodb E ?w0] =>
        destruct (upload_returns w0) as (w4 & Hrun4 & Hu); rewrite Hrun4;
        destruct Hu as (Htr4 & Hsf4 & Hup4 & Hfs4); [done|]
    end.
    eexists. split; [reflexivity|]. simpl in *.
    rewrite Htr4, Hsf4, Hup4, Hfs4. simpl.
    split; [by rewrite <- app_assoc|]. repeat split; try done.
    by rewrite last_snoc.
  - eexists. split; [reflexivity|]. simpl.
    repeat split; try done. by rewrite <- !app_assoc.
Qed.

End MoreStages.

(** ** Choosing from a list of labels *)

Section LabelProofs.

Variable fmt : pyval → pystr.
Variable str_repr : pystr → pystr.

Lemma collect_Forall2 {A B} (f : A → result B) l chunks :
  collect (map f l) = Ok chunks → Forall2 (λ x c, f x = Ok c) l chunks.
Proof.
  revert chunks. induction l as [|x l IH]; intros chunks; simpl.
  - intros [= <-]. constructor.
  - destruct (f x) as [c|] eqn:Hf; [|done].
    destruct (collect (map f l)) as [cs|]; [|done].
    intros [= <-]. constructor; auto.
Qed.

(** X18.  With several candidates found, the candidate the matcher page
    works on is the first one that carries the selected label: a candidate
    whose name, email and phone print like those of an earlier candidate is
    never the one chosen. *)
Theorem first_candidate_with_label_is_chosen (pre post : list pyval)
    (c : pyval) (label : pystr) (options : list pystr) :
  1 < length (pre ++ c :: post) →
  collect (map (candidate_option fmt) (pre ++ c :: post)) = Ok options →
  candidate_option fmt c = Ok label →
  (∀ c', c' ∈ pre → candidate_option fmt c' ≠ Ok label) →
  select_candidate fmt str_repr (pre ++ c :: post) label = Ok (Some c).
Proof.
  intros Hlen Hopts Hc Hpre.
  assert (list_find (λ o, o = label) options = Some (length pre, label)) as Hfind.
  { apply collect_Forall2 in Hopts.
    apply Forall2_app_inv_l in Hopts as (opre & orest & Hfpre & Hfrest & ->).
    apply Forall2_cons_inv_l in Hfrest as (o & opost & Ho & _ & ->).
    assert (o = label) as -> by congruence.
    pose proof (Forall2_length _ _ _ Hfpre) as Hl.
    apply list_find_Some. split; [|split; [done|]].
    - rewrite Hl. by rewrite list_lookup_middle.
    - intros j y Hj Hlt Hy. subst y.
      rewrite lookup_app_l in Hj by lia.
      destruct (Forall2_lookup_r _ _ _ _ _ Hfpre Hj) as (c' & Hc' & Hf).
      eapply Hpre; [|exact Hf]. by eapply list_elem_of_lookup_2. }
  unfold select_candidate.
  destruct (pre ++ c :: post) as [|c1 [|c2 rest]] eqn:Hres; simpl in Hlen; try lia.
  rewrite Hopts. munfold. unfold list_index. rewrite Hfind.
  rewrite <- Hres. by rewrite list_lookup_middle.
Qed.

Lemma display_loop_options results :
  ∀ options m options' m',
    display_loop fmt results options m = Ok (options', m') →
    Forall2 (λ r o, display_text fmt r = Ok o) results
      (drop (length options) options')
    ∧ take (length options) options' = options.
Proof.
  induction results as [|r results IH]; intros options m options' m'; simpl.
  - intros [= <- <-]. rewrite drop_all, firstn_all. split; [constructor | done].
  - munfold. destruct (display_text fmt r) as [t|] eqn:Ht; [|done].
    intros Hloop. apply IH in Hloop as [Hf Htake].
    rewrite length_app in Hf, Htake. simpl in *.
    assert (options' = options ++ t :: drop (length options + 1) options') as Heq.
    { rewrite <- (take_drop (length options + 1) options') at 1.
      rewrite Htake. by rewrite <- app_assoc. }
    split.
    + rewrite Heq at 1. rewrite drop_app_length. constructor; done.
    + rewrite Heq. by rewrite take_app_length.
Qed.

Lemma display_loop_lookup results label :
  ∀ options m options' m',
    display_loop fmt results options m = Ok (options', m') →
    (∀ r, r ∈ results → display_text fmt r ≠ Ok label) →
    dict_lookup label m' = dict_lookup label m.
Proof.
  induction results as [|r results IH]; intros options m options' m'; simpl.
  - by intros [= <- <-].
  - munfold. destruct (display_text fmt r) as [t|] eqn:Ht; [|done].
    intros Hloop Hno. erewrite IH; [|exact Hloop|].
    + apply dict_lookup_set_ne. intros ->. eapply Hno; [|exact Ht].
      rewrite elem_of_cons. auto.
    + intros r' Hr'. apply Hno. rewrite elem_of_cons. auto.
Qed.

Lemma display_loop_app pre post :
  ∀ options m options' m',
    display_loop fmt (pre ++ post) options m = Ok (options', m') →
    ∃ options1 m1,
      display_loop fmt pre options m = Ok (options1, m1)
      ∧ display_loop fmt post options1 m1 = Ok (options', m').
Proof.
  induction pre as [|r pre IH]; intros options m options' m'; simpl.
  - eauto.
  - munfold. destruct (display_text fmt r) as [t|]; [|done]. apply IH.
Qed.

(** X19.  On the database page the labels are kept in a list and the
    resumes in a dict under their labels: the list has the label of every
    result, in order, and the resume the dict gives for a label is the last
    result that carries it.  A resume whose name and email print like those of a
    later result cannot be viewed, nor deleted, from this page. *)
Theorem last_resume_with_label_is_shown (pre post : list pyval) (res : pyval)
    (label : pystr) (options : list pystr) (display_map : list (pystr * pyval)) :
  display_loop fmt (pre ++ res :: post) [] [] = Ok (options, display_map) →
  display_text fmt res = Ok label →
  (∀ r, r ∈ post → display_text fmt r ≠ Ok label) →
  selected_resume display_map label = Some res
  ∧ Forall2 (λ r o, display_text fmt r = Ok o) (pre ++ res :: post) options.
Proof.
  intros Hloop Hres Hpost. split.
  - apply display_loop_app in Hloop as (o1 & m1 & _ & Hloop).
    simpl in Hloop. munfold. rewrite Hres in Hloop.
    unfold selected_resume.
    erewrite display_loop_lookup; [|exact Hloop|exact Hpost].
    apply dict_lookup_set_eq.
  - apply display_loop_options in Hloop as [Hf _]. by rewrite drop_0 in Hf.
Qed.


(** ** Deleting a resume *)

Variable D : DbEnv.

Lemma delete_panel_idle resume c s :
  delete_confirmation s = false →
  c ≠ ClickDelete →
  delete_panel fmt str_repr D resume c s = s.
Proof.
  intros Hflag Hc. unfold delete_panel. rewrite Hflag. simpl. by destruct c.
Qed.

(** X21.  The store is never asked to delete without a confirmation: a run
    that starts with the confirmation off makes no call, so a session that
    starts that way and sees no click on "Delete Resume" never calls the
    store.  And in the run that confirms, the resume deleted is the one
    selected in that run, by its [_id]. *)
Theorem deletion_needs_confirmation
    (runs : list (list (pystr * pyval) * click)) (resume : list (pystr * pyval))
    (c : click) (s : db_page) :
  (delete_confirmation s = false →
   db_trace (delete_panel fmt str_repr D resume c s) = db_trace s)
  ∧ (delete_confirmation s = false →
     Forall (λ run, run.2 ≠ ClickDelete) runs →
     delete_runs fmt str_repr D runs s = s)
  ∧ (∀ id, delete_confirmation s = true →
           dict_lookup k_id resume = Some id →
           ∃ rest,
             db_trace (delete_panel fmt str_repr D resume ClickConfirm s)
             = db_trace s ++ DbDelete (PDict [(k_id, id)]) :: rest).
Proof.
  split; [|split].
  - intros Hflag. unfold delete_panel. rewrite Hflag. simpl. by destruct c.
  - intros Hflag Hruns. revert s Hflag.
    induction Hruns as [|[r c'] runs Hc _ IH]; intros s Hflag; [done|].
    simpl. rewrite delete_panel_idle by done. by apply IH.
  - intros id Hflag Hid. unfold delete_panel, confirm_delete.
    rewrite Hflag, Hid. simpl.
    destruct (delete_resume D _ _); simpl; [by exists []|].
    destruct (find_all D _); simpl; rewrite <- app_assoc; by exists [DbFindAll].
Qed.

(** X22.  After a click on "Yes, Delete" the confirmation closes exactly
    when the resume has an [_id], the deletion returns and the refresh of
    the list returns; the list of the session is then the refreshed one.
    In every other case, a missing [_id], a deletion that raises or a
    refresh that raises, the confirmation stays open and the list of the
    session is the one from before. *)
Theorem confirmation_closes_on_success (resume : list (pystr * pyval))
    (s : db_page) :
  delete_confirmation s = true →
  let s' := delete_panel fmt str_repr D resume ClickConfirm s in
  (delete_confirmation s' = false
   ↔ ∃ id results,
       dict_lookup k_id resume = Some id
       ∧ delete_resume D (length (db_trace s)) (PDict [(k_id, id)]) = None
       ∧ find_all D (S (length (db_trace s))) = Ok results
       ∧ all_resumes_results s' = results)
  ∧ (delete_confirmation s' = true →
     all_resumes_results s' = all_resumes_results s).
Proof.
  intros Hflag. unfold delete_panel, confirm_delete. rewrite Hflag. simpl.
  destruct (dict_lookup k_id resume) as [id|] eqn:Hid; simpl.
  - destruct (delete_resume D _ _) as [e|] eqn:Hdel; simpl.
    + rewrite Hflag. split; [|done]. split; [done|].
      intros (id' & results & [= <-] & Hd & _). congruence.
    + rewrite length_app. simpl. rewrite Nat.add_1_r.
      destruct (find_all D _) as [results|e] eqn:Hfind; simpl.
      * split; [|done]. split; [|done]. intros _. eauto 10.
      * rewrite Hflag. split; [|done]. split; [done|].
        intros (id' & results & [= <-] & _ & [=] & _).
  - rewrite Hflag. split; [|done]. split; [done|].
    intros (id' & results & [=] & _).
Qed.

End LabelProofs.

(** ** Tracking the uploaded names *)

Lemma str_leb_total a b : str_leb a b = true ∨ str_leb b a = true.
Proof.
  revert b. induction a as [|x a IH]; intros [|y b]; simpl; auto.
  destruct (N.ltb_spec x y), (N.ltb_spec y x); auto; lia.
Qed.

Lemma str_le_trans : Transitive str_le.
Proof.
  intros a. unfold str_le.
  induction a as [|x a IH]; intros [|y b] [|z c]; simpl; try done.
  destruct (N.ltb_spec x y), (N.ltb_spec y x), (N.ltb_spec y z),
    (N.ltb_spec z y), (N.ltb_spec x z), (N.ltb_spec z x);
    try done; try lia; eauto.
Qed.

Lemma str_le_antisym : AntiSymm (=) str_le.
Proof.
  intros a. unfold str_le.
  induction a as [|x a IH]; intros [|y b]; simpl; try done.
  destruct (N.ltb_spec x y), (N.ltb_spec y x); try done; try lia.
  intros. f_equal; [lia|auto].
Qed.

Lemma insert_sorted_perm x l : insert_sorted x l ≡ₚ x :: l.
Proof.
  induction l as [|y l IH]; simpl; [done|].
  destruct (str_leb x y); [done|]. rewrite IH. apply Permutation_swap.
Qed.

Lemma py_sorted_perm l : py_sorted l ≡ₚ l.
Proof.
  induction l as [|x l IH]; simpl; [done|].
  unfold py_sorted in *. simpl. by rewrite insert_sorted_perm, IH.
Qed.

Lemma insert_sorted_Sorted x l :
  Sorted str_le l → Sorted str_le (insert_sorted x l).
Proof.
  induction 1 as [|y l Hl IH Hy]; simpl.
  - by repeat constructor.
  - destruct (str_leb x y) eqn:Hxy.
    + repeat constructor; done.
    + constructor; [done|].
      assert (str_le y x) as Hyx
        by (by destruct (str_leb_total x y) as [?|?]; [congruence|]).
      destruct Hy as [|z l Hz]; simpl in *.
      * by constructor.
      * destruct (str_leb x z); by constructor.
Qed.

Lemma py_sorted_Sorted l : Sorted str_le (py_sorted l).
Proof.
  induction l as [|x l IH]; [constructor|]. by apply insert_sorted_Sorted.
Qed.

Lemma py_sorted_eq a b : py_sorted a = py_sorted b ↔ a ≡ₚ b.
Proof.
  split.
  - intros H. by rewrite <- (py_sorted_perm a), H, py_sorted_perm.
  - intros H.
    apply (@Sorted_unique _ str_le str_le_trans str_le_antisym);
      try apply py_sorted_Sorted.
    by rewrite !py_sorted_perm.
Qed.

(** X23.  The session is reset exactly when files are uploaded and their
    names, as a multiset, are not the names recorded: the three flags are
    cleared, the three lists are emptied and the names are recorded in
    upload order.  Uploading the same files in another order changes
    nothing, and neither does a run with no upload: removing every file
    keeps the old names and the old results in the session. *)
Theorem upload_tracking_resets_on_change (uploaded : list upload)
    (s : upload_page) :
  (uploaded = [] → track_uploads uploaded s = s)
  ∧ (up_name <$> uploaded ≡ₚ uploaded_file_names s → track_uploads uploaded s = s)
  ∧ (uploaded ≠ [] → ¬ (up_name <$> uploaded ≡ₚ uploaded_file_names s) →
     track_uploads uploaded s
     = UploadPage (reset_session (session s)) (up_name <$> uploaded)).
Proof.
  split; [by intros ->|]. split.
  - intros Hperm. destruct uploaded as [|f fs]; [done|].
    unfold track_uploads. rewrite bool_decide_eq_false_2; [done|].
    intros Hne. by apply Hne, py_sorted_eq.
  - intros Hne Hperm. destruct uploaded as [|f fs]; [done|].
    unfold track_uploads. rewrite bool_decide_eq_true_2; [done|].
    intros Heq. by apply Hperm, py_sorted_eq.
Qed.

(** ** The properties on sample runs *)

Lemma payloads_and_objectids_witness :
  ∃ ty s, download_payload (Demo.ana "65a1")
          = Raise (Json.not_serializable (PObj ty s)).
Proof.
  destruct (payloads_and_objectids (Demo.ana "65a1")) as [_ H].
  destruct H as (ty & s & H & _).
  - vm_compute. reflexivity.
  - exists ty, s. exact H.
Defined.

Lemma download_payloads_are_ascii_witness :
  ∃ text, download_payload Toy.jose = Ok text ∧ Json.is_ascii text = true.
Proof.
  eexists. split.
  - vm_compute. reflexivity.
  - apply (download_payloads_are_ascii Toy.jose).
    + vm_compute. reflexivity.
    + left. vm_compute. reflexivity.
Defined.

Lemma name_check_on_strings_witness :
  needs_reprocessing (PDict [(k_name, PStr (ustr "  J Doe"))]) = Ok true.
Proof.
  destruct (name_check_on_strings [(k_name, PStr (ustr "  J Doe"))]) as [H _].
  rewrite (H (ustr "  J Doe")).
  - vm_compute. reflexivity.
  - vm_compute. reflexivity.
Defined.


Lemma standardize_stage_session_witness :
  ∃ w', standardize_resumes Toy.env Toy.parsed_cv = (Ok tt, w')
        ∧ standardizing_complete w' = true.
Proof.
  destruct (standardize_stage_session Toy.env Toy.parsed_cv)
    as (w' & evs & Hrun & _ & _ & _ & _ & _ & Hflag & _).
  - reflexivity.
  - exists w'. split; [exact Hrun | exact Hflag].
Defined.

Lemma standardize_stage_on_existing_witness :
  ∃ w', standardize_resumes Toy.env (Toy.standardized [Toy.cv_pdf]) = (Ok tt, w')
        ∧ fs w' = fs (Toy.standardized [Toy.cv_pdf]).
Proof.
  destruct (standardize_stage_on_existing Toy.env (Toy.standardized [Toy.cv_pdf]))
    as (w' & Hrun & _ & Hfs & _).
  - reflexivity.
  - assert (processed_files (Toy.standardized [Toy.cv_pdf]) = [Toy.cv_parsed])
      as Hfiles by (vm_compute; reflexivity).
    rewrite Hfiles. intros p Hp. apply list_elem_of_singleton in Hp. subst p.
    eexists. vm_compute. reflexivity.
  - exists w'. split; [exact Hrun | exact Hfs].
Defined.

Lemma standardize_skips_empty_content_witness :
  ∃ w', standardize_one Toy.env 1 0 Toy.cv_parsed Demo.parsed_blank = (Ok tt, w')
        ∧ trace w' = trace Demo.parsed_blank
        ∧ fs w' = fs Demo.parsed_blank.
Proof.
  destruct (standardize_skips_empty_content Toy.env 1 0 Toy.cv_parsed
              Demo.parsed_blank Demo.blank_content)
    as (w' & Hrun & _ & Htr & Hfs & _).
  - vm_compute. reflexivity.
  - vm_compute. reflexivity.
  - right. exists [32%N; 10%N]. split; vm_compute; reflexivity.
  - exists w'. split; [exact Hrun|]. split; [exact Htr | exact Hfs].
Defined.

Lemma standardize_stage_without_standardizer_witness :
  ∃ w', standardize_resumes Demo.env_no_standardizer Toy.parsed_cv = (Ok tt, w')
        ∧ standardized_files w' = []
        ∧ standardizing_complete w' = false.
Proof.
  destruct (standardize_stage_without_standardizer Demo.env_no_standardizer
              Toy.parsed_cv Demo.missing_config)
    as (w' & Hrun & _ & _ & Hfiles & Hflag & _).
  - reflexivity.
  - exists w'. split; [exact Hrun|]. split; [exact Hfiles | exact Hflag].
Defined.


Lemma upload_stage_without_store_witness :
  ∃ w', upload_to_mongodb Demo.env_no_store (Toy.standardized [Toy.cv_pdf])
        = (Ok tt, w')
        ∧ uploaded_files w' = []
        ∧ db_upload_complete w' = false.
Proof.
  destruct (upload_stage_without_store Demo.env_no_store
              (Toy.standardized [Toy.cv_pdf]) Demo.timed_out)
    as (w' & Hrun & _ & _ & Hup & Hflag & _).
  - reflexivity.
  - exists w'. split; [exact Hrun|]. split; [exact Hup | exact Hflag].
Defined.

Lemma validation_leaves_valid_records_witness :
  ∃ w', validate_and_reprocess_resumes Toy.env [Toy.cv_pdf]
          (Toy.with_file Toy.cv_json (Demo.ana "65a1")) = (Ok tt, w')
        ∧ trace w' = []
        ∧ fs w' = fs (Toy.with_file Toy.cv_json (Demo.ana "65a1")).
Proof.
  destruct (validation_leaves_valid_records Toy.env [Toy.cv_pdf]
              (Toy.with_file Toy.cv_json (Demo.ana "65a1")))
    as (w' & Hrun & _ & Htr & Hfs & _).
  - intros p Hp. apply list_elem_of_singleton in Hp. subst p.
    exists (Demo.ana "65a1"). split; vm_compute; reflexivity.
  - exists w'. split; [exact Hrun|]. split; [exact Htr | exact Hfs].
Defined.

Lemma selected_record_is_counted_witness :
  ∃ w', validate_one Toy.env [Toy.other_pdf] Toy.cv_json
          (Toy.with_file Toy.cv_json Toy.empty_name_record) = (Ok tt, w')
        ∧ count w' = 1.
Proof.
  destruct (selected_record_is_counted Toy.env [Toy.other_pdf] Toy.cv_json
              (Toy.with_file Toy.cv_json Toy.empty_name_record)
              Toy.empty_name_record)
    as (w' & rest & Hrun & Hcount & _).
  - vm_compute. reflexivity.
  - vm_compute. reflexivity.
  - exists w'. split; [exact Hrun | exact Hcount].
Defined.

Lemma failed_reextraction_keeps_record_witness :
  ∃ w', validate_one Demo.env_no_ocr [Toy.cv_pdf] Toy.cv_json
          (Toy.with_file Toy.cv_json Toy.empty_name_record) = (Ok tt, w')
        ∧ trace w' = [COcrParse (ustr "cv.pdf")].
Proof.
  destruct (failed_reextraction_keeps_record Demo.env_no_ocr [Toy.cv_pdf]
              Toy.cv_json (Toy.with_file Toy.cv_json Toy.empty_name_record)
              Toy.empty_name_record Toy.cv_pdf (Ok (PDict [])))
    as (w' & Hrun & Htr & _).
  - vm_compute. reflexivity.
  - vm_compute. reflexivity.
  - vm_compute. reflexivity.
  - reflexivity.
  - reflexivity.
  - exists w'. split; [exact Hrun | exact Htr].
Defined.


Lemma button_without_standardizer_witness :
  ∃ w', process_resumes_clicked Demo.env_no_standardizer [Toy.cv_pdf] Toy.fresh
        = (Ok tt, w')
        ∧ standardized_files w' = []
        ∧ last (ui w') = Some (UiSuccess msg_upload_complete).
Proof.
  destruct (button_without_standardizer Demo.env_no_standardizer [Toy.cv_pdf]
              Toy.fresh
              (Toy.after (process_uploaded_files Demo.env_no_standardizer
                            [Toy.cv_pdf]) Toy.fresh)
              Demo.missing_config)
    as (w' & Hrun & _ & Hfiles & _ & _ & Hlast).
  - vm_compute. reflexivity.
  - reflexivity.
  - exists w'. split; [exact Hrun|]. split; [exact Hfiles | exact Hlast].
Defined.

Lemma first_candidate_with_label_is_chosen_witness :
  ∃ label,
    candidate_option Demo.fmt (Demo.ana "65a2") = Ok label
    ∧ select_candidate Demo.fmt Demo.str_repr
        [Demo.ben; Demo.ana "65a1"; Demo.ana "65a2"] label
      = Ok (Some (Demo.ana "65a1")).
Proof.
  eexists. split.
  - vm_compute. reflexivity.
  - eapply (first_candidate_with_label_is_chosen Demo.fmt Demo.str_repr
              [Demo.ben] [Demo.ana "65a2"] (Demo.ana "65a1")).
    + simpl. lia.
    + vm_compute. reflexivity.
    + vm_compute. reflexivity.
    + intros c' Hc'. apply list_elem_of_singleton in Hc'. subst c'.
      vm_compute. discriminate.
Defined.

Lemma last_resume_with_label_is_shown_witness :
  ∃ label options display_map,
    display_loop Demo.fmt [Demo.ana "65a1"; Demo.ana "65a2"; Demo.ben] [] []
    = Ok (options, display_map)
    ∧ display_text Demo.fmt (Demo.ana "65a1") = Ok label
    ∧ selected_resume display_map label = Some (Demo.ana "65a2").
Proof.
  eexists. eexists. eexists. split; [vm_compute; reflexivity|].
  split; [vm_compute; reflexivity|].
  eapply (last_resume_with_label_is_shown Demo.fmt
            [Demo.ana "65a1"] [Demo.ben] (Demo.ana "65a2")).
  - vm_compute. reflexivity.
  - vm_compute. reflexivity.
  - intros r Hr. apply list_elem_of_singleton in Hr. subst r.
    vm_compute. discriminate.
Defined.


Lemma deletion_needs_confirmation_witness :
  delete_runs Demo.fmt Demo.str_repr Demo.db
    [(Demo.ana_record, NoClick); (Demo.ana_record, ClickConfirm);
     (Demo.ana_record, ClickCancel)] Demo.listing
  = Demo.listing
  ∧ ∃ rest,
      db_trace (delete_panel Demo.fmt Demo.str_repr Demo.db Demo.ana_record
                  ClickConfirm Demo.confirming)
      = DbDelete (PDict [(k_id, PObj ObjectId_name (ustr "65a1"))]) :: rest.
Proof.
  split.
  - destruct (deletion_needs_confirmation Demo.fmt Demo.str_repr Demo.db
                [(Demo.ana_record, NoClick); (Demo.ana_record, ClickConfirm);
                 (Demo.ana_record, ClickCancel)]
                Demo.ana_record NoClick Demo.listing) as (_ & H & _).
    apply H; [reflexivity|]. repeat constructor; discriminate.
  - destruct (deletion_needs_confirmation Demo.fmt Demo.str_repr Demo.db []
                Demo.ana_record NoClick Demo.confirming) as (_ & _ & H).
    apply (H (PObj ObjectId_name (ustr "65a1"))).
    + reflexivity.
    + vm_compute. reflexivity.
Defined.

Lemma confirmation_closes_on_success_witness :
  delete_confirmation
    (delete_panel Demo.fmt Demo.str_repr Demo.db Demo.ana_record ClickConfirm
       Demo.confirming) = false
  ∧ delete_confirmation
      (delete_panel Demo.fmt Demo.str_repr Demo.db_down Demo.ana_record
         ClickConfirm Demo.confirming) = true.
Proof.
  split.
  - pose proof (confirmation_closes_on_success Demo.fmt Demo.str_repr Demo.db
                  Demo.ana_record Demo.confirming eq_refl) as H.
    cbv zeta in H. destruct H as [[_ H] _]. apply H.
    exists (PObj ObjectId_name (ustr "65a1")), [Demo.ben].
    repeat split; vm_compute; reflexivity.
  - pose proof (confirmation_closes_on_success Demo.fmt Demo.str_repr
                  Demo.db_down Demo.ana_record Demo.confirming eq_refl) as H.
    cbv zeta in H. destruct H as [[H _] _].
    destruct (delete_confirmation _); [reflexivity|].
    destruct (H eq_refl) as (id & results & _ & Hdel & _).
    simpl in Hdel. discriminate Hdel.
Defined.

Lemma upload_tracking_resets_on_change_witness :
  track_uploads [Toy.other_pdf; Toy.cv_pdf] Demo.processed_page
  = Demo.processed_page
  ∧ track_uploads [Toy.cv_pdf] Demo.processed_page
    = UploadPage (reset_session (session Demo.processed_page)) [ustr "cv.pdf"].
Proof.
  destruct (upload_tracking_resets_on_change [Toy.other_pdf; Toy.cv_pdf]
              Demo.processed_page) as (_ & Hsame & _).
  destruct (upload_tracking_resets_on_change [Toy.cv_pdf] Demo.processed_page)
    as (_ & _ & Hreset).
  split.
  - apply Hsame. apply Permutation_swap.
  - apply Hreset; [discriminate|].
    intros Hperm. apply Permutation_length in Hperm. discriminate Hperm.
Defined.
